(** * lighthouse-audit: a shallow embedding of [scripts/lighthouse-audit.js]

    The script parses its command line, validates it, launches a headless
    browser, runs an accessibility audit, writes the HTML report, renders
    it to a JPEG and prints a summary.  Pure parts of the script are Rocq
    functions; the effectful part runs in a small state-and-exception monad
    whose outcomes include [process.exit].  Whatever the script does not
    decide itself (the URL parser, the clock, the three third-party
    libraries, the file system) is read from a [World] record over which
    every theorem quantifies. *)

From Stdlib Require Import ZArith Floats.
From Stdlib Require Import Strings.Ascii.
From Stdlib Require Strings.String.
From stdpp Require Import gmap strings list pretty.

Set Warnings "-inexact-float".

Local Open Scope Z_scope.

(** ** The parts of the JavaScript library the script calls

    Strings are byte strings; command-line arguments are taken to be
    ASCII, so that a code unit is a byte and [toLowerCase] only moves
    [A-Z]. *)

Module JS.

(** [s.startsWith(p)] *)
Definition startsWith (s p : string) : bool := String.prefix p s.

(** [s.split(sep)] for a one-character separator: the pieces between the
    separators, an empty string giving one empty piece. *)
Fixpoint split (sep : ascii) (s : string) : list string :=
  match s with
  | EmptyString => [EmptyString]
  | String c s' =>
      if Ascii.eqb c sep then EmptyString :: split sep s'
      else match split sep s' with
           | [] => [String c EmptyString]
           | p :: ps => String c p :: ps
           end
  end.

Definition isUpper (c : ascii) : bool :=
  let n := nat_of_ascii c in (65 <=? n)%nat && (n <=? 90)%nat.

Definition toLowerChar (c : ascii) : ascii :=
  if isUpper c then ascii_of_nat (nat_of_ascii c + 32) else c.

(** [s.toLowerCase()] *)
Fixpoint toLowerCase (s : string) : string :=
  match s with
  | EmptyString => EmptyString
  | String c s' => String (toLowerChar c) (toLowerCase s')
  end.

(** [s.replace(/[cls]/g, by)]: every character of the class is replaced. *)
Fixpoint replace_class (cls : ascii -> bool) (by_ : string) (s : string) : string :=
  match s with
  | EmptyString => EmptyString
  | String c s' =>
      (if cls c then by_ else String c EmptyString) +:+ replace_class cls by_ s'
  end.

(** [s.slice(b, e)]: a negative index counts from the end, both are clamped
    to the string. *)
Definition slice (s : string) (b e : Z) : string :=
  let len := Z.of_nat (String.length s) in
  let from := if b <? 0 then Z.max (len + b) 0 else Z.min b len in
  let to := if e <? 0 then Z.max (len + e) 0 else Z.min e len in
  String.substring (Z.to_nat from) (Z.to_nat (Z.max (to - from) 0)) s.

(** The character classes of the script's two regular expressions. *)
Definition isDigit (c : ascii) : bool :=
  let n := nat_of_ascii c in (48 <=? n)%nat && (n <=? 57)%nat.
Definition isLower (c : ascii) : bool :=
  let n := nat_of_ascii c in (97 <=? n)%nat && (n <=? 122)%nat.
(** [[:.]] *)
Definition colon_or_period (c : ascii) : bool :=
  Ascii.eqb c ":" || Ascii.eqb c ".".
(** [[^a-zA-Z0-9]] *)
Definition not_alphanumeric (c : ascii) : bool :=
  negb (isLower c || isUpper c || isDigit c).

(** A value that is [null] or a string, and its truthiness: [!url] holds
    for [null] and for the empty string. *)
Definition truthy (v : option string) : bool :=
  match v with
  | None => false
  | Some EmptyString => false
  | Some _ => true
  end.

(** Numbers are IEEE 754 binary64, as in JavaScript.  [ToNumber(null)] is
    [+0]; a score is [null] or a number. *)
Definition ToNumber (v : option float) : float :=
  match v with
  | None => 0%float
  | Some x => x
  end.

(** [Math.round(x)]: the integer closest to [x], a tie going up.  The
    result of rounding a finite number is kept as an exact integer (the
    sign of a zero result is dropped: it prints as [0] either way). *)
Inductive Rounded : Type :=
| RInt (z : Z)
| RNaN
| RInfinity (negative : bool).

Definition Math_round (x : float) : Rounded :=
  match Prim2SF x with
  | S754_zero _ => RInt 0
  | S754_infinity s => RInfinity s
  | S754_nan => RNaN
  | S754_finite s m e =>
      let sm := if s then Z.neg m else Z.pos m in
      RInt (if 0 <=? e then sm * 2 ^ e
            else (2 * sm + 2 ^ (- e)) `div` 2 ^ (1 - e))
  end.

(** [`${n}`] for a rounded number.  An integer prints as its decimal
    numeral; JavaScript switches to exponent notation from [1e21] on,
    which a percentage never reaches. *)
Definition Number_toString (r : Rounded) : string :=
  match r with
  | RInt z => pretty z
  | RNaN => "NaN"
  | RInfinity false => "Infinity"
  | RInfinity true => "-Infinity"
  end.

(** [Object.keys(o)] and [Object.values(o)] of an object used as a map. *)
Definition Object_keys {A} (o : gmap string A) : list string := (map_to_list o).*1.
Definition Object_values {A} (o : gmap string A) : list A := (map_to_list o).*2.

(** [new Date()] as its UTC fields, and [toISOString()], which is
    [YYYY-MM-DDTHH:mm:ss.sssZ] (the year has six digits and a sign beyond
    9999).  Every field is printed at its fixed width. *)
Record Date : Type := mkDate {
  year : N; month : N; day : N;
  hours : N; minutes : N; seconds : N; milliseconds : N
}.

Definition digit (n : N) : ascii := ascii_of_N (48 + n `mod` 10).

(** The last [w] decimal digits of [n]. *)
Fixpoint digits (w : nat) (n : N) : string :=
  match w with
  | O => EmptyString
  | S w' => digits w' (n `div` 10)%N +:+ String (digit n) EmptyString
  end.

Definition isoYear (y : N) : string :=
  if (y <=? 9999)%N then digits 4 y else "+" +:+ digits 6 y.

Definition toISOString (d : Date) : string :=
  isoYear (year d) +:+ "-" +:+ digits 2 (month d) +:+ "-" +:+ digits 2 (day d)
  +:+ "T" +:+ digits 2 (hours d) +:+ ":" +:+ digits 2 (minutes d)
  +:+ ":" +:+ digits 2 (seconds d) +:+ "." +:+ digits 3 (milliseconds d) +:+ "Z".

End JS.

(** ** Argument parsing and validation *)

(** The object [{ url, platform }] that [parseArgs] returns. *)
Record Args : Type := mkArgs { url : option string; platform : string }.

(** One turn of the [for] loop of [parseArgs]: [a] is [args[i]] and [rest]
    holds [args[i+1]], ... ; [i + 1 < args.length] says [rest] is not empty.
    [split("=")[1]] is the piece between the first and the second [=]; under
    the [startsWith] test there is one (lemma [split_second_defined]), as
    there is an [args[i+1]] under the length test, so the defaults below
    are never taken. *)
Definition parse_step (a : string) (rest : list string) (st : Args) : Args :=
  if JS.startsWith a "--url=" then
    mkArgs (JS.split "=" a !! 1%nat) (platform st)
  else if String.eqb a "--url" && bool_decide (rest ≠ []) then
    mkArgs (head rest) (platform st)
  else if JS.startsWith a "--platform=" then
    mkArgs (url st) (JS.toLowerCase (default EmptyString (JS.split "=" a !! 1%nat)))
  else if String.eqb a "--platform" && bool_decide (rest ≠ []) then
    mkArgs (url st) (JS.toLowerCase (default EmptyString (head rest)))
  else if negb (JS.startsWith a "--") && negb (JS.truthy (url st)) then
    mkArgs (Some a) (platform st)
  else st.

Fixpoint parse_loop (args : list string) (st : Args) : Args :=
  match args with
  | [] => st
  | a :: rest => parse_loop rest (parse_step a rest st)
  end.

(** [parseArgs()], on [process.argv.slice(2)]. *)
Definition parseArgs (args : list string) : Args :=
  parse_loop args (mkArgs None "desktop").

Definition isValidPlatform (platform : string) : bool :=
  bool_decide (JS.toLowerCase platform ∈ ["desktop"; "mobile"]).

(** ** The platform profile *)

Record ScreenEmulation : Type := mkScreenEmulation {
  se_mobile : bool;
  se_width : Z;
  se_height : Z;
  se_deviceScaleFactor : Z;
  se_disabled : bool
}.

Record Throttling : Type := mkThrottling {
  rttMs : float;
  throughputKbps : float;
  cpuSlowdownMultiplier : float;
  requestLatencyMs : float;
  downloadThroughputKbps : float;
  uploadThroughputKbps : float
}.

Record PlatformConfig : Type := mkPlatformConfig {
  formFactor : string;
  screenEmulation : ScreenEmulation;
  throttling : Throttling
}.

Record Viewport : Type := mkViewport {
  vp_width : Z;
  vp_height : Z;
  vp_deviceScaleFactor : Z
}.

(** [platformConfig], the conditional expression on [platform === "mobile"]. *)
Definition platformConfig (platform : string) : PlatformConfig :=
  if String.eqb platform "mobile" then
    {| formFactor := "mobile";
       screenEmulation :=
         {| se_mobile := true; se_width := 375; se_height := 667;
            se_deviceScaleFactor := 2; se_disabled := false |};
       throttling :=
         {| rttMs := 150; throughputKbps := 1638.4; cpuSlowdownMultiplier := 4;
            requestLatencyMs := 150; downloadThroughputKbps := 1638.4;
            uploadThroughputKbps := 675 |} |}
  else
    {| formFactor := "desktop";
       screenEmulation :=
         {| se_mobile := false; se_width := 1350; se_height := 940;
            se_deviceScaleFactor := 1; se_disabled := false |};
       throttling :=
         {| rttMs := 40; throughputKbps := 10240; cpuSlowdownMultiplier := 1;
            requestLatencyMs := 0; downloadThroughputKbps := 0;
            uploadThroughputKbps := 0 |} |}.

(** [viewportConfig] *)
Definition viewportConfig (platform : string) : Viewport :=
  if String.eqb platform "mobile" then
    {| vp_width := 375; vp_height := 800; vp_deviceScaleFactor := 2 |}
  else
    {| vp_width := 1200; vp_height := 800; vp_deviceScaleFactor := 1 |}.

(** The [options] object handed to [lighthouse]: the four fixed keys, then
    the spread of [platformConfig] (whose keys are different ones). *)
Record Options : Type := mkOptions {
  logLevel : string;
  output : string;
  onlyCategories : list string;
  port : Z;
  config : PlatformConfig
}.

(** ** File names *)

(** [getTimestamp()], at the date [new Date()] returns. *)
Definition getTimestamp (now : JS.Date) : string :=
  JS.slice (JS.replace_class JS.colon_or_period "-" (JS.toISOString now)) 0 (-5).

(** [hostname.replace(/[^a-zA-Z0-9]/g, "-")] *)
Definition domain_of (hostname : string) : string :=
  JS.replace_class JS.not_alphanumeric "-" hostname.

(** A path [path.join(dir, file)], kept as the pair of its directory and
    its file name, and the string it prints as. *)
Abbreviation Path := (string * string)%type.
Definition path_join (dir file : string) : Path := (dir, file).
Definition path_string (p : Path) : string := p.1 +:+ "/" +:+ p.2.

(** ** The world outside the script *)

Record Error : Type := mkError { message : string }.

Inductive Result (A : Type) : Type :=
| Ok (a : A)
| Fails (e : Error).
Arguments Ok {A} a.
Arguments Fails {A} e.

(** The handle [chromeLauncher.launch] resolves to: of its fields the
    script reads [port]. *)
Record LaunchedChrome : Type := mkLaunchedChrome { chrome_port : Z }.

(** What [new URL(s)] yields of interest here. *)
Record URL : Type := mkURL { hostname : string }.

(** One audit of the report: its score is [null] or a number. *)
Record Audit : Type := mkAudit { score : option float }.

(** [lhr]: [categories.accessibility.score] and the [audits] object. *)
Record LHR : Type := mkLHR {
  accessibility_score : option float;
  audits : gmap string Audit
}.

Record RunnerResult : Type := mkRunnerResult { report : string; lhr : LHR }.

(** Everything the script asks of its environment during one run, with the
    answer it gets: [new URL] ([None]: it throws), [__dirname], the clock,
    and for each call into a library whether it returns or throws.
    [lighthouse] may also resolve to no result.  The renderer is asked in
    four places: starting its browser and loading the HTML, the two page
    operations of the hook, and the capture with the file it writes. *)
Record World : Type := mkWorld {
  URL_new : string -> option URL;
  __dirname : string;
  now : JS.Date;
  launch : Result LaunchedChrome;
  lighthouse : Result (option RunnerResult);
  writeFile : Result unit;
  render_setup : Result unit;
  waitForTimeout : Result unit;
  setViewport : Result unit;
  screenshot : Result string;
  kill : Result unit
}.

(** [isValidUrl(string)] *)
Definition isValidUrl (w : World) (s : string) : bool :=
  match URL_new w s with
  | Some _ => true
  | None => false
  end.

(** ** Effects

    The trace records every call the script makes that is visible outside
    it, in order.  The state also holds the files on disk, the script's
    variable [chrome] (assigned in the [try] block, read in [finally]) and
    whether the browser process it launched is still running. *)

Record ImageRequest : Type := mkImageRequest {
  img_output : Path;
  img_html : string;
  img_type : string;
  img_quality : Z;
  img_puppeteerArgs : list string
}.

Inductive Event : Type :=
| console_error (msg : string)
| console_log (msg : string)
| unhandledRejection (reason : Error)
| chromeLauncher_launch (chromeFlags : list string)
| lighthouse_run (url : string) (options : Options)
| fs_writeFile (path : Path) (data : string)
| nodeHtmlToImage (request : ImageRequest)
| page_waitForTimeout (ms : Z)
| page_setViewport (viewport : Viewport)
| page_screenshot (path : Path) (type : string) (quality : Z)
| chrome_kill.

Record State : Type := mkState {
  trace : list Event;
  files : gmap Path string;
  chrome : option LaunchedChrome;
  browser_running : bool
}.

(** How a computation ends: with a value, with a thrown error, or with the
    process gone ([process.exit(code)]). *)
Inductive Res (A : Type) : Type :=
| Val (a : A)
| Throw (e : Error)
| Exit (code : Z).
Arguments Val {A} a.
Arguments Throw {A} e.
Arguments Exit {A} code.

Definition M (A : Type) : Type := State -> State * Res A.

Definition ret {A} (a : A) : M A := fun s => (s, Val a).

Definition bind {A B} (m : M A) (k : A -> M B) : M B :=
  fun s =>
    match m s with
    | (s', Val a) => k a s'
    | (s', Throw e) => (s', Throw e)
    | (s', Exit c) => (s', Exit c)
    end.

Declare Scope js_scope.
Delimit Scope js_scope with js.
Notation "x <- m ;; k" := (bind m (fun x => k))
  (at level 100, m at next level, right associativity) : js_scope.
Notation "m ;; k" := (bind m (fun _ => k))
  (at level 100, right associativity) : js_scope.
Local Open Scope js_scope.

Definition throw {A} (e : Error) : M A := fun s => (s, Throw e).

(** [process.exit(code)]: nothing of the script runs after it. *)
Definition process_exit {A} (code : Z) : M A := fun s => (s, Exit code).

Definition emit (e : Event) : M unit :=
  fun s => (mkState (trace s ++ [e]) (files s) (chrome s) (browser_running s), Val tt).

Definition of_result {A} (r : Result A) : M A :=
  match r with
  | Ok a => ret a
  | Fails e => throw e
  end.

Definition when (b : bool) (m : M unit) : M unit := if b then m else ret tt.

(** [try { body } catch (error) { handler } finally { finalizer }].  The
    handler runs when the body throws.  The finalizer runs after the body
    or the handler has returned or thrown; it does not run when either of
    them has left through [process.exit], which ends the process on the
    spot.  A finalizer that returns leaves the earlier outcome in place. *)
Definition try_catch_finally {A}
    (body : M A) (handler : Error -> M A) (finalizer : M unit) : M A :=
  fun s =>
    let '(s1, r1) := body s in
    let '(s2, r2) :=
      match r1 with
      | Throw e => handler e s1
      | _ => (s1, r1)
      end in
    match r2 with
    | Exit c => (s2, Exit c)
    | _ =>
        match finalizer s2 with
        | (s3, Val _) => (s3, r2)
        | (s3, Throw e) => (s3, Throw e)
        | (s3, Exit c) => (s3, Exit c)
        end
    end.

Definition set_chrome (handle : LaunchedChrome) : M unit :=
  fun s => (mkState (trace s) (files s) (Some handle) (browser_running s), Val tt).

Definition set_browser_running (b : bool) : M unit :=
  fun s => (mkState (trace s) (files s) (chrome s) b, Val tt).

Definition get_chrome : M (option LaunchedChrome) := fun s => (s, Val (chrome s)).

Definition store_file (path : Path) (data : string) : M unit :=
  fun s => (mkState (trace s) (<[path := data]> (files s)) (chrome s) (browser_running s),
            Val tt).

Definition nl : string := String "010" EmptyString.

Section Script.

Variable w : World.

(** *** The collaborators, as the script sees them *)

(** [chromeLauncher.launch({ chromeFlags })]: resolves to a handle with the
    debugging port once the browser runs. *)
Definition chromeLauncher_launch_ (chromeFlags : list string) : M LaunchedChrome :=
  emit (chromeLauncher_launch chromeFlags);;
  handle <- of_result (launch w);;
  set_browser_running true;;
  ret handle.

(** [chrome.kill()] *)
Definition chrome_kill_ : M unit :=
  emit chrome_kill;;
  of_result (kill w);;
  set_browser_running false.

(** [lighthouse(url, options)] *)
Definition lighthouse_ (url : string) (options : Options) : M (option RunnerResult) :=
  emit (lighthouse_run url options);;
  of_result (lighthouse w).

(** [fs.writeFile(path, data)] *)
Definition fs_writeFile_ (path : Path) (data : string) : M unit :=
  emit (fs_writeFile path data);;
  of_result (writeFile w);;
  store_file path data.

Definition page_waitForTimeout_ (ms : Z) : M unit :=
  emit (page_waitForTimeout ms);;
  of_result (waitForTimeout w).

Definition page_setViewport_ (v : Viewport) : M unit :=
  emit (page_setViewport v);;
  of_result (setViewport w).

(** [nodeHtmlToImage({ ..., beforeScreenshot })]: the renderer starts its own
    browser and loads the HTML, calls the hook on the page, then captures
    the page into the output file. *)
Definition nodeHtmlToImage_ (request : ImageRequest) (beforeScreenshot : M unit) : M unit :=
  emit (nodeHtmlToImage request);;
  of_result (render_setup w);;
  beforeScreenshot;;
  emit (page_screenshot (img_output request) (img_type request) (img_quality request));;
  image <- of_result (screenshot w);;
  store_file (img_output request) image.

(** [new URL(url)] inside the [try] block. *)
Definition new_URL (s : string) : M URL :=
  match URL_new w s with
  | Some u => ret u
  | None => throw (mkError "Invalid URL")
  end.

(** *** [runLighthouseAudit] *)

(** The arrow function of the [filter] over the audits. *)
Definition is_failed (audit : Audit) : bool :=
  match score audit with
  | None => false
  | Some x => PrimFloat.ltb x 1
  end.

(** The [try] block. *)
Definition try_block (url platform : string) : M unit :=
  emit (console_log "🔧 Launching Chrome...");;
  chrome <- chromeLauncher_launch_ ["--headless"; "--no-sandbox"; "--disable-dev-shm-usage"];;
  set_chrome chrome;;
  emit (console_log ("platform " +:+ platform));;
  let options :=
    {| logLevel := "info"; output := "html"; onlyCategories := ["accessibility"];
       port := chrome_port chrome; config := platformConfig platform |} in
  emit (console_log "🔍 Running Lighthouse audit...");;
  runnerResult <- lighthouse_ url options;;
  match runnerResult with
  | None => throw (mkError "Lighthouse audit failed to return results")
  | Some runnerResult =>
      let htmlReport := report runnerResult in
      let timestamp := getTimestamp (now w) in
      u <- new_URL url;;
      let domain := domain_of (hostname u) in
      let baseFilename :=
        "lighthouse-accessibility-" +:+ domain +:+ "-" +:+ platform +:+ "-" +:+ timestamp in
      let htmlFilePath := path_join (__dirname w) (baseFilename +:+ ".html") in
      fs_writeFile_ htmlFilePath htmlReport;;
      emit (console_log ("📄 HTML report saved: " +:+ path_string htmlFilePath));;
      emit (console_log "🖼️  Converting HTML report to JPG...");;
      let jpgFilePath := path_join (__dirname w) (baseFilename +:+ ".jpg") in
      nodeHtmlToImage_
        {| img_output := jpgFilePath; img_html := htmlReport; img_type := "jpeg";
           img_quality := 100;
           img_puppeteerArgs := ["--no-sandbox"; "--disable-setuid-sandbox"] |}
        (page_waitForTimeout_ 2000;;
         page_setViewport_ (viewportConfig platform));;
      emit (console_log ("📸 JPG image saved: " +:+ path_string jpgFilePath));;
      let lhr := lhr runnerResult in
      let accessibilityScore := accessibility_score lhr in
      let scorePercentage := JS.Math_round (JS.ToNumber accessibilityScore * 100)%float in
      emit (console_log (nl +:+ "📊 Audit Summary:"));;
      emit (console_log ("   URL: " +:+ url));;
      emit (console_log ("   Platform: " +:+ platform));;
      emit (console_log ("   Accessibility Score: " +:+ JS.Number_toString scorePercentage
                         +:+ "/100"));;
      emit (console_log ("   Total Audits: "
                         +:+ pretty (length (JS.Object_keys (audits lhr)))));;
      let failedAudits := length (List.filter is_failed (JS.Object_values (audits lhr))) in
      when (0 <? failedAudits)%nat
        (emit (console_log ("   Failed Audits: " +:+ pretty failedAudits)));;
      emit (console_log (nl +:+ "✅ Audit completed successfully!"))
  end.

(** The [catch] block. *)
Definition catch_block (error : Error) : M unit :=
  emit (console_error ("❌ Error during audit: " +:+ message error));;
  process_exit 1.

(** The [finally] block. *)
Definition finally_block : M unit :=
  chrome <- get_chrome;;
  match chrome with
  | Some _ => chrome_kill_
  | None => ret tt
  end.

Definition runLighthouseAudit (args : list string) : M unit :=
  let '(mkArgs url platform) := parseArgs args in
  when (negb (JS.truthy url))
    (emit (console_error "❌ Error: Please provide a URL to audit");;
     emit (console_log "Usage: node lighthouse-audit.js <URL> [--platform=desktop|mobile]");;
     emit (console_log "   or: node lighthouse-audit.js --url=<URL> --platform=<desktop|mobile>");;
     emit (console_log "Example: node lighthouse-audit.js https://example.com --platform=mobile");;
     process_exit 1);;
  (* from here on [url] is a non-empty string *)
  let url := default EmptyString url in
  when (negb (isValidUrl w url))
    (emit (console_error "❌ Error: Invalid URL provided");;
     process_exit 1);;
  when (negb (isValidPlatform platform))
    (emit (console_error "❌ Error: Invalid platform. Use 'desktop' or 'mobile'");;
     process_exit 1);;
  emit (console_log ("🚀 Starting Lighthouse accessibility audit for: " +:+ url));;
  emit (console_log ("📱 Platform: " +:+ platform));;
  try_catch_finally (try_block url platform) catch_block finally_block.

(** The script: the [unhandledRejection] handler is installed, then
    [runLighthouseAudit()] is called.  A run that returns lets the process
    end with code 0; a rejected one reaches the handler, which logs and
    exits with code 1.  The result is the final state and the exit code. *)
Definition main (files0 : gmap Path string) (args : list string) : State * Z :=
  match runLighthouseAudit args (mkState [] files0 None false) with
  | (s, Val _) => (s, 0)
  | (s, Exit code) => (s, code)
  | (s, Throw reason) =>
      (mkState (trace s ++ [unhandledRejection reason]) (files s) (chrome s)
         (browser_running s), 1)
  end.

End Script.

(** ** Predicates and reference definitions for the statements *)

(** A console event. *)
Definition is_console (e : Event) : bool :=
  match e with
  | console_error _ | console_log _ => true
  | _ => false
  end.

(** The three checks of [runLighthouseAudit] all pass. *)
Definition valid_args (w : World) (a : Args) : Prop :=
  JS.truthy (url a) = true
  ∧ isValidUrl w (default EmptyString (url a)) = true
  ∧ isValidPlatform (platform a) = true.

Global Instance valid_args_dec w a : Decision (valid_args w a).
Proof. unfold valid_args. apply _. Defined.

Definition is_Ok {A} (r : Result A) : Prop := ∃ a, r = Ok a.

(** Every collaborator answers, and the audit's answer is [rr]. *)
Definition collaborators_succeed (w : World) (rr : RunnerResult) : Prop :=
  is_Ok (launch w) ∧ lighthouse w = Ok (Some rr) ∧ writeFile w = Ok tt
  ∧ render_setup w = Ok tt ∧ waitForTimeout w = Ok tt ∧ setViewport w = Ok tt
  ∧ is_Ok (screenshot w) ∧ kill w = Ok tt.

(** An argument that sets the platform, in either spelling. *)
Definition is_platform_flag (a : string) : bool :=
  JS.startsWith a "--platform=" || String.eqb a "--platform".

Definition other_than (sep : ascii) (c : ascii) : bool := negb (Ascii.eqb c sep).

(** Whether every character of a string passes a test. *)
Fixpoint all_chars (p : ascii → bool) (s : string) : bool :=
  match s with
  | EmptyString => true
  | String c s' => p c && all_chars p s'
  end.

Fixpoint map_chars (f : ascii → ascii) (s : string) : string :=
  match s with
  | EmptyString => EmptyString
  | String c s' => String (f c) (map_chars f s')
  end.

Definition is_alphanumeric (c : ascii) : bool :=
  JS.isLower c || JS.isUpper c || JS.isDigit c.

(** The domain part of a file name as the specification words it: the
    host name with every character outside [A-Za-z0-9] replaced by [-]. *)
Definition spec_domain (hostname : string) : string :=
  map_chars (λ c, if is_alphanumeric c then c else "-"%char) hostname.

(** The timestamp as the specification words it: the ISO date and time
    down to the second, with [-] where the time of day has [:]. *)
Definition spec_timestamp (d : JS.Date) : string :=
  JS.isoYear (JS.year d) +:+ "-" +:+ JS.digits 2 (JS.month d) +:+ "-"
  +:+ JS.digits 2 (JS.day d) +:+ "T" +:+ JS.digits 2 (JS.hours d) +:+ "-"
  +:+ JS.digits 2 (JS.minutes d) +:+ "-" +:+ JS.digits 2 (JS.seconds d).

(** A failed audit as the specification words it: its score is not [null]
    and is less than 1. *)
Definition failed_audit (a : Audit) : Prop :=
  is_Some (score a) ∧ PrimFloat.ltb (JS.ToNumber (score a)) 1 = true.

Global Instance failed_audit_dec a : Decision (failed_audit a).
Proof. unfold failed_audit. apply _. Defined.

(** An argument that sets the URL, in either spelling. *)
Definition is_url_flag (a : string) : bool :=
  JS.startsWith a "--url=" || String.eqb a "--url".

(** An argument that starts with [--] and does not set the URL. *)
Definition is_other_flag (a : string) : bool :=
  JS.startsWith a "--" && negb (is_url_flag a).

(** A character of a file name that needs no quoting: a letter, a digit,
    [-], [.] or [+]. *)
Definition is_safe_char (c : ascii) : bool :=
  is_alphanumeric c || Ascii.eqb c "-" || Ascii.eqb c "." || Ascii.eqb c "+".

(** The message of the first collaborator that fails, in the order in
    which the [try] block calls them; [None] when all of them up to the
    capture answer.  An audit that resolves to no result counts with the
    message of the [throw] at line 146. *)
Definition first_failure (w : World) : option string :=
  match launch w with
  | Fails e => Some (message e)
  | Ok _ =>
  match lighthouse w with
  | Fails e => Some (message e)
  | Ok None => Some "Lighthouse audit failed to return results"
  | Ok (Some _) =>
  match writeFile w with
  | Fails e => Some (message e)
  | Ok _ =>
  match render_setup w with
  | Fails e => Some (message e)
  | Ok _ =>
  match waitForTimeout w with
  | Fails e => Some (message e)
  | Ok _ =>
  match setViewport w with
  | Fails e => Some (message e)
  | Ok _ =>
  match screenshot w with
  | Fails e => Some (message e)
  | Ok _ => None
  end end end end end end end.

(** The lines [runLighthouseAudit] prints when no URL was given. *)
Definition usage_lines : list Event :=
  [console_error "❌ Error: Please provide a URL to audit";
   console_log "Usage: node lighthouse-audit.js <URL> [--platform=desktop|mobile]";
   console_log "   or: node lighthouse-audit.js --url=<URL> --platform=<desktop|mobile>";
   console_log "Example: node lighthouse-audit.js https://example.com --platform=mobile"].

(** ** A sample world

    A run in which every collaborator answers: a URL parser that knows one
    address, a report with three audits (one failed, one passed, one not
    applicable) and a score of 0.95. *)

Definition sample_URL_new (s : string) : option URL :=
  if String.eqb s "https://example.com" then Some (mkURL "example.com") else None.

Definition sample_result : RunnerResult :=
  {| report := "<html>report</html>";
     lhr := {| accessibility_score := Some 0.95%float;
               audits := {[ "color-contrast" := mkAudit (Some 0%float);
                            "image-alt" := mkAudit (Some 1%float);
                            "video-caption" := mkAudit None ]} |} |}.

Definition sample_world : World :=
  {| URL_new := sample_URL_new;
     __dirname := "/app/scripts";
     now := JS.mkDate 2024 1 15 10 30 45 123;
     launch := Ok (mkLaunchedChrome 9222);
     lighthouse := Ok (Some sample_result);
     writeFile := Ok tt;
     render_setup := Ok tt;
     waitForTimeout := Ok tt;
     setViewport := Ok tt;
     screenshot := Ok "<jpeg>";
     kill := Ok tt |}.

(** The same world, except that the audit throws. *)
Definition audit_fails_world : World :=
  {| URL_new := sample_URL_new;
     __dirname := "/app/scripts";
     now := JS.mkDate 2024 1 15 10 30 45 123;
     launch := Ok (mkLaunchedChrome 9222);
     lighthouse := Fails (mkError "PROTOCOL_TIMEOUT");
     writeFile := Ok tt;
     render_setup := Ok tt;
     waitForTimeout := Ok tt;
     setViewport := Ok tt;
     screenshot := Ok "<jpeg>";
     kill := Ok tt |}.

(** The same world, except that the report has no accessibility score. *)
Definition null_score_result : RunnerResult :=
  {| report := "<html>report</html>";
     lhr := {| accessibility_score := None; audits := ∅ |} |}.

Definition null_score_world : World :=
  {| URL_new := sample_URL_new;
     __dirname := "/app/scripts";
     now := JS.mkDate 2024 1 15 10 30 45 123;
     launch := Ok (mkLaunchedChrome 9222);
     lighthouse := Ok (Some null_score_result);
     writeFile := Ok tt;
     render_setup := Ok tt;
     waitForTimeout := Ok tt;
     setViewport := Ok tt;
     screenshot := Ok "<jpeg>";
     kill := Ok tt |}.

(** The same world, except that the capture fails. *)
Definition capture_fails_world : World :=
  {| URL_new := sample_URL_new;
     __dirname := "/app/scripts";
     now := JS.mkDate 2024 1 15 10 30 45 123;
     launch := Ok (mkLaunchedChrome 9222);
     lighthouse := Ok (Some sample_result);
     writeFile := Ok tt;
     render_setup := Ok tt;
     waitForTimeout := Ok tt;
     setViewport := Ok tt;
     screenshot := Fails (mkError "Protocol error");
     kill := Ok tt |}.

(** The sample world, except that the browser does not start. *)
Definition launch_fails_world : World :=
  {| URL_new := sample_URL_new;
     __dirname := "/app/scripts";
     now := JS.mkDate 2024 1 15 10 30 45 123;
     launch := Fails (mkError "ECONNREFUSED");
     lighthouse := Ok (Some sample_result);
     writeFile := Ok tt;
     render_setup := Ok tt;
     waitForTimeout := Ok tt;
     setViewport := Ok tt;
     screenshot := Ok "<jpeg>";
     kill := Ok tt |}.

(** The sample world, except that [chrome.kill()] throws. *)
Definition kill_fails_world : World :=
  {| URL_new := sample_URL_new;
     __dirname := "/app/scripts";
     now := JS.mkDate 2024 1 15 10 30 45 123;
     launch := Ok (mkLaunchedChrome 9222);
     lighthouse := Ok (Some sample_result);
     writeFile := Ok tt;
     render_setup := Ok tt;
     waitForTimeout := Ok tt;
     setViewport := Ok tt;
     screenshot := Ok "<jpeg>";
     kill := Fails (mkError "ESRCH") |}.

(** ** Tactics for walking through a run *)

Local Arguments platformConfig : simpl never.
Local Arguments viewportConfig : simpl never.
Local Arguments getTimestamp : simpl never.
Local Arguments domain_of : simpl never.
Local Arguments path_join : simpl never.
Local Arguments path_string : simpl never.
Local Arguments JS.Math_round : simpl never.
Local Arguments JS.Number_toString : simpl never.
Local Arguments JS.Object_keys : simpl never.
Local Arguments JS.Object_values : simpl never.
Local Arguments pretty : simpl never.
Local Arguments PrimFloat.mul : simpl never.
Local Arguments Nat.ltb : simpl never.
Local Arguments isValidUrl : simpl never.
Local Arguments isValidPlatform : simpl never.
Local Arguments JS.truthy : simpl never.

Ltac open_run_in H :=
  unfold try_catch_finally, try_block, catch_block, finally_block,
    chromeLauncher_launch_, lighthouse_, new_URL, fs_writeFile_, nodeHtmlToImage_,
    page_waitForTimeout_, page_setViewport_, chrome_kill_ in H.

(** One more answer of the world, the next one the run in [H] waits for. *)
Ltac step_in H :=
  cbn in H;
  match type of H with
  | context [launch ?w] => destruct (launch w) as [?|?] eqn:?
  | context [lighthouse ?w] => destruct (lighthouse w) as [[?|]|?] eqn:?
  | context [writeFile ?w] => destruct (writeFile w) as [[]|?] eqn:?
  | context [render_setup ?w] => destruct (render_setup w) as [[]|?] eqn:?
  | context [waitForTimeout ?w] => destruct (waitForTimeout w) as [[]|?] eqn:?
  | context [setViewport ?w] => destruct (setViewport w) as [[]|?] eqn:?
  | context [screenshot ?w] => destruct (screenshot w) as [?|?] eqn:?
  | context [kill ?w] => destruct (kill w) as [[]|?] eqn:?
  | context [(0 <? ?n)%nat] => destruct (0 <? n)%nat eqn:?
  end.

(** The positions [i] at which a trace that is written out holds an event
    of the shape in [H : trace !! i = Some e]; [tac] runs at each. *)
Ltac scan H i tac :=
  repeat (lazymatch type of H with (_ :: _) !! _ = _ => idtac end;
          destruct i as [|i]; [simpl in H; first [discriminate H | tac]| simpl in H]);
  try discriminate H.

(** Every way a run with valid arguments can go: one goal for each
    combination of answers, with the final state and the exit code
    written out.  [Hrun] and [Hx] come from [run_valid], [Hmain] names the
    result of [main]. *)
Ltac run_cases Hrun Hx Hmain :=
  let Hst := fresh "Hst" in
  unfold main in Hmain; rewrite Hrun in Hmain; clear Hrun;
  open_run_in Hmain; rewrite Hx in Hmain;
  repeat step_in Hmain; cbn in Hmain;
  apply pair_equal_spec in Hmain as [Hst <-]; injection Hst as <- <- <- <-.

(** ** Strings *)

Section Strings.

Implicit Types (s t u : string) (c d : ascii).

Lemma app_cons c s t : String c s +:+ t = String c (s +:+ t).
Proof. reflexivity. Qed.

Lemma app_nil_r s : s +:+ EmptyString = s.
Proof. induction s as [|c s IH]; [done|]. by rewrite app_cons, IH. Qed.

Lemma app_assoc_string s t u : (s +:+ t) +:+ u = s +:+ (t +:+ u).
Proof. induction s as [|c s IH]; [done|]. by rewrite !app_cons, IH. Qed.

Lemma length_app_string s t :
  String.length (s +:+ t) = (String.length s + String.length t)%nat.
Proof. induction s as [|c s IH]; [done|]. rewrite app_cons. simpl. by rewrite IH. Qed.

Lemma app_inv_head_string s t u : s +:+ t = s +:+ u → t = u.
Proof. induction s as [|c s IH]; [done|]. rewrite !app_cons. intros [=]. auto. Qed.

Lemma substring_prefix s t : String.substring 0 (String.length s) (s +:+ t) = s.
Proof.
  induction s as [|c s IH]; simpl.
  - by destruct t.
  - by rewrite ?app_cons, IH.
Qed.

(** Dropping a suffix of [k] characters with [slice(0, -k)]. *)
Lemma slice_drop_suffix s t (k : Z) :
  0 < k → Z.of_nat (String.length t) = k → JS.slice (s +:+ t) 0 (- k) = s.
Proof.
  intros Hk Ht. unfold JS.slice. rewrite length_app_string.
  replace (0 <? 0) with false by done.
  replace (- k <? 0) with true by (symmetry; apply Z.ltb_lt; lia).
  replace (Z.to_nat (0 `min` _)) with 0%nat by lia.
  replace (Z.to_nat _) with (String.length s) by lia.
  apply substring_prefix.
Qed.

Lemma all_chars_app p s t : all_chars p (s +:+ t) = all_chars p s && all_chars p t.
Proof.
  induction s as [|c s IH]; [done|]. rewrite app_cons. simpl.
  by rewrite IH, andb_assoc.
Qed.

Lemma replace_class_app cls b s t :
  JS.replace_class cls b (s +:+ t)
  = JS.replace_class cls b s +:+ JS.replace_class cls b t.
Proof.
  induction s as [|c s IH]; [done|]. rewrite app_cons. simpl.
  by rewrite IH, app_assoc_string.
Qed.

Lemma replace_class_outside cls b s :
  all_chars (λ c, negb (cls c)) s = true → JS.replace_class cls b s = s.
Proof.
  induction s as [|c s IH]; [done|]. simpl. intros [Hc Hs]%andb_true_iff.
  apply negb_true_iff in Hc. rewrite Hc, IH by done. done.
Qed.

Lemma digit_is_digit n : JS.isDigit (JS.digit n) = true.
Proof.
  unfold JS.digit.
  assert (n `mod` 10 < 10)%N as H by (apply N.mod_lt; lia).
  destruct (n `mod` 10)%N as [|[[[|[]|]|[|[]|]|]|[[|[]|]|[|[]|]|]|]]; try lia; reflexivity.
Qed.

Lemma digit_not_colon_or_period c : JS.isDigit c = true → JS.colon_or_period c = false.
Proof. destruct c as [[] [] [] [] [] [] [] []]; by vm_compute. Qed.

Lemma length_digits w n : String.length (JS.digits w n) = w.
Proof.
  revert n. induction w as [|w IH]; intros n; [done|]. simpl.
  rewrite length_app_string, IH. simpl. lia.
Qed.

Lemma digits_are_digits w n : all_chars JS.isDigit (JS.digits w n) = true.
Proof.
  revert n. induction w as [|w IH]; intros n; [done|]. simpl.
  rewrite all_chars_app, IH. simpl. by rewrite digit_is_digit.
Qed.

Lemma all_chars_impl (p q : ascii → bool) s :
  (∀ c, p c = true → q c = true) → all_chars p s = true → all_chars q s = true.
Proof.
  intros Hpq. induction s as [|c s IH]; [done|]. simpl.
  intros [Hc Hs]%andb_true_iff. by rewrite (Hpq _ Hc), IH.
Qed.

Lemma replace_digits w n :
  JS.replace_class JS.colon_or_period "-" (JS.digits w n) = JS.digits w n.
Proof.
  apply replace_class_outside, all_chars_impl with (p := JS.isDigit).
  - intros c Hc. by rewrite digit_not_colon_or_period.
  - apply digits_are_digits.
Qed.

Lemma replace_isoYear y :
  JS.replace_class JS.colon_or_period "-" (JS.isoYear y) = JS.isoYear y.
Proof.
  unfold JS.isoYear. destruct (y <=? 9999)%N.
  - apply replace_digits.
  - rewrite replace_class_app, replace_digits. done.
Qed.

End Strings.

(** The timestamp is the ISO date and time of day down to the second, with
    [-] for [:]; the milliseconds and the [Z] are gone. *)
Lemma getTimestamp_format (d : JS.Date) :
  getTimestamp d
  = JS.isoYear (JS.year d) +:+ "-" +:+ JS.digits 2 (JS.month d) +:+ "-"
    +:+ JS.digits 2 (JS.day d) +:+ "T" +:+ JS.digits 2 (JS.hours d) +:+ "-"
    +:+ JS.digits 2 (JS.minutes d) +:+ "-" +:+ JS.digits 2 (JS.seconds d).
Proof.
  unfold getTimestamp, JS.toISOString.
  rewrite !replace_class_app, !replace_digits, replace_isoYear.
  change (JS.replace_class JS.colon_or_period "-" "-") with "-".
  change (JS.replace_class JS.colon_or_period "-" "T") with "T".
  change (JS.replace_class JS.colon_or_period "-" ":") with "-".
  change (JS.replace_class JS.colon_or_period "-" ".") with "-".
  change (JS.replace_class JS.colon_or_period "-" "Z") with "Z".
  rewrite <- !app_assoc_string.
  rewrite (app_assoc_string _ (JS.digits 3 _) "Z").
  rewrite (app_assoc_string _ "-" (JS.digits 3 _ +:+ "Z")).
  apply (slice_drop_suffix _ _ 5); [lia|].
  rewrite !length_app_string, length_digits. done.
Qed.

(** ** [split] *)

Lemma split_nonempty sep s : JS.split sep s ≠ [].
Proof. destruct s as [|c s]; simpl; [done|]. by repeat case_match. Qed.

Lemma split_outside sep s :
  all_chars (other_than sep) s = true → JS.split sep s = [s].
Proof.
  induction s as [|c s IH]; [done|]. simpl. unfold other_than at 1.
  intros [Hc Hs]%andb_true_iff. apply negb_true_iff in Hc.
  by rewrite Hc, IH.
Qed.

Lemma split_at_first sep s t :
  all_chars (other_than sep) s = true →
  JS.split sep (s +:+ String sep t) = s :: JS.split sep t.
Proof.
  induction s as [|c s IH]; simpl.
  - intros _. change (EmptyString +:+ String sep t) with (String sep t).
    simpl. by rewrite Ascii.eqb_refl.
  - unfold other_than at 1. intros [Hc Hs]%andb_true_iff.
    apply negb_true_iff in Hc. rewrite ?app_cons. simpl. by rewrite Hc, IH.
Qed.

Lemma startsWith_inv p s : JS.startsWith s p = true → ∃ r, s = p +:+ r.
Proof.
  unfold JS.startsWith. revert s. induction p as [|c p IH]; intros s H.
  - by exists s.
  - destruct s as [|d s]; simpl in H; [done|].
    destruct (ascii_dec c d) as [->|]; [|done].
    destruct (IH _ H) as [r ->]. by exists r.
Qed.

Lemma startsWith_app p r : JS.startsWith (p +:+ r) p = true.
Proof.
  unfold JS.startsWith. induction p as [|c p IH].
  - by destruct r.
  - rewrite app_cons. simpl. by destruct (ascii_dec c c).
Qed.

(** Under either [startsWith] test of [parseArgs], [split("=")[1]] is a
    string: the piece of the value before its first [=]. *)
Lemma split_second_defined a :
  JS.startsWith a "--url=" = true ∨ JS.startsWith a "--platform=" = true →
  is_Some (JS.split "=" a !! 1%nat).
Proof.
  intros [[r ->]%startsWith_inv|[r ->]%startsWith_inv].
  - change ("--url=" +:+ r) with ("--url" +:+ String "=" r).
    rewrite split_at_first by done.
    destruct (JS.split "=" r) as [|x xs] eqn:E; [by apply split_nonempty in E|].
    by exists x.
  - change ("--platform=" +:+ r) with ("--platform" +:+ String "=" r).
    rewrite split_at_first by done.
    destruct (JS.split "=" r) as [|x xs] eqn:E; [by apply split_nonempty in E|].
    by exists x.
Qed.

Lemma toLowerChar_is_sep c :
  Ascii.eqb (JS.toLowerChar c) "=" = Ascii.eqb c "=".
Proof. destruct c as [[] [] [] [] [] [] [] []]; reflexivity. Qed.

Lemma toLowerCase_no_sep v :
  all_chars (other_than "=") (JS.toLowerCase v) = all_chars (other_than "=") v.
Proof.
  induction v as [|c v IH]; [done|]. simpl. unfold other_than at 1 3.
  by rewrite toLowerChar_is_sep, IH.
Qed.

(** ** The platform that [parseArgs] returns *)

Lemma parse_step_platform_eq v rest st :
  all_chars (other_than "=") v = true →
  parse_step ("--platform=" +:+ v) rest st = mkArgs (url st) (JS.toLowerCase v).
Proof.
  intros Hv. unfold parse_step.
  change (JS.startsWith ("--platform=" +:+ v) "--url=") with false.
  change (String.eqb ("--platform=" +:+ v) "--url") with false.
  rewrite startsWith_app.
  cbv iota. simpl (false && _).  cbv iota.
  change ("--platform=" +:+ v) with ("--platform" +:+ String "=" v).
  rewrite split_at_first by done. by rewrite split_outside.
Qed.

Lemma parse_step_platform_next v rest st :
  parse_step "--platform" (v :: rest) st = mkArgs (url st) (JS.toLowerCase v).
Proof. reflexivity. Qed.

Lemma parse_step_other a rest st :
  is_platform_flag a = false → platform (parse_step a rest st) = platform st.
Proof.
  unfold is_platform_flag, parse_step. intros [H1 H2]%orb_false_iff.
  rewrite H1, H2. simpl. by repeat case_match.
Qed.

Lemma parse_loop_no_platform_flag args st :
  existsb is_platform_flag args = false →
  platform (parse_loop args st) = platform st.
Proof.
  revert st. induction args as [|a args IH]; intros st; [done|]. simpl.
  intros [Ha Hargs]%orb_false_iff. rewrite IH by done.
  by apply parse_step_other.
Qed.

(** The loop on a list [pre ++ rest] reaches [rest] in some state. *)
Lemma parse_loop_app pre rest st :
  ∃ st', parse_loop (pre ++ rest) st = parse_loop rest st'.
Proof.
  revert st. induction pre as [|a pre IH]; intros st; simpl; eauto.
Qed.


(** With [--url=value], the URL is the value up to its first [=] ... *)
Lemma url_flag_value_cut v t rest st :
  all_chars (other_than "=") v = true →
  url (parse_step ("--url=" +:+ v +:+ String "=" t) rest st) = Some v.
Proof.
  intros Hv. unfold parse_step. rewrite startsWith_app. cbn [url].
  change ("--url=" +:+ v +:+ String "=" t)
    with ("--url" +:+ String "=" (v +:+ String "=" t)).
  rewrite split_at_first by done. by rewrite split_at_first.
Qed.

(** ... which is the whole value when it holds no [=]. *)
Lemma url_flag_value_whole v rest st :
  all_chars (other_than "=") v = true →
  url (parse_step ("--url=" +:+ v) rest st) = Some v.
Proof.
  intros Hv. unfold parse_step. rewrite startsWith_app. cbn [url].
  change ("--url=" +:+ v) with ("--url" +:+ String "=" v).
  rewrite split_at_first by done. by rewrite split_outside.
Qed.

(** With [--url value], and for a first positional argument, the URL is
    the whole token. *)
Lemma url_flag_next_whole v rest st :
  url (parse_step "--url" (v :: rest) st) = Some v.
Proof. reflexivity. Qed.

(** ** The claims about parsing and the platform profile *)

(** C3 (the code departs from it).  The URL given as [--url=<value>] is
    not taken whole: [split("=")[1]] keeps the value only up to its first
    [=], so a URL with a query string loses its tail, while the same URL
    given as [--url <value>] or positionally is kept whole.  A platform
    given as [--platform=<value>] is cut the same way. *)
Theorem url_flag_value_cut_at_equals_sign :
  parseArgs ["--url=https://example.com/?q=1"]
  = mkArgs (Some "https://example.com/?q") "desktop"
  ∧ parseArgs ["--url"; "https://example.com/?q=1"]
    = mkArgs (Some "https://example.com/?q=1") "desktop"
  ∧ parseArgs ["https://example.com/?q=1"]
    = mkArgs (Some "https://example.com/?q=1") "desktop"
  ∧ parseArgs ["--platform=mobile=x"] = mkArgs None "mobile"
  ∧ parseArgs ["--platform"; "mobile=x"] = mkArgs (Some "mobile=x") "mobile=x".
Proof. repeat split; reflexivity. Qed.

(** C2.  For the platform [desktop], and for the platform [parseArgs]
    returns when no argument sets one, the profile is: form factor
    desktop; screen emulation not mobile, 1350 by 940, scale 1; no added
    request latency, no cap on download or upload throughput, CPU slowdown
    multiplier 1 (next to them the record carries the simulated round trip
    of 40 ms and throughput of 10240 Kbps); rendering viewport 1200 by
    800, scale 1. *)
Theorem desktop_profile (args : list string) (p : string) :
  p = "desktop"
  ∨ (existsb is_platform_flag args = false ∧ p = platform (parseArgs args)) →
  formFactor (platformConfig p) = "desktop"
  ∧ screenEmulation (platformConfig p)
    = {| se_mobile := false; se_width := 1350; se_height := 940;
         se_deviceScaleFactor := 1; se_disabled := false |}
  ∧ throttling (platformConfig p)
    = {| rttMs := 40; throughputKbps := 10240; cpuSlowdownMultiplier := 1;
         requestLatencyMs := 0; downloadThroughputKbps := 0;
         uploadThroughputKbps := 0 |}
  ∧ viewportConfig p
    = {| vp_width := 1200; vp_height := 800; vp_deviceScaleFactor := 1 |}.
Proof.
  intros [->|[Hno ->]]; [done|].
  unfold parseArgs. by rewrite parse_loop_no_platform_flag.
Qed.

Lemma desktop_profile_witness :
  existsb is_platform_flag ["https://example.com"] = false
  ∧ throttling (platformConfig (platform (parseArgs ["https://example.com"])))
    = {| rttMs := 40; throughputKbps := 10240; cpuSlowdownMultiplier := 1;
         requestLatencyMs := 0; downloadThroughputKbps := 0;
         uploadThroughputKbps := 0 |}.
Proof.
  split; [reflexivity|].
  apply (desktop_profile ["https://example.com"]). right. split; reflexivity.
Defined.

(** C5.  For a platform value that is [mobile] up to the case of its
    letters, given as [--platform=<value>] or as [--platform <value>] and
    followed by no other platform argument, the profile is: form factor
    mobile; screen emulation mobile, 375 by 667, scale 2; CPU slowdown
    multiplier 4 and throughput 1638.4 Kbps; rendering viewport 375 by
    800, scale 2. *)
Theorem mobile_profile (v : string) (pre post : list string) (p : string) :
  JS.toLowerCase v = "mobile" →
  existsb is_platform_flag post = false →
  p = platform (parseArgs (pre ++ ("--platform=" +:+ v) :: post))
  ∨ p = platform (parseArgs (pre ++ "--platform" :: v :: post)) →
  p = "mobile"
  ∧ formFactor (platformConfig p) = "mobile"
  ∧ screenEmulation (platformConfig p)
    = {| se_mobile := true; se_width := 375; se_height := 667;
         se_deviceScaleFactor := 2; se_disabled := false |}
  ∧ throttling (platformConfig p)
    = {| rttMs := 150; throughputKbps := 1638.4; cpuSlowdownMultiplier := 4;
         requestLatencyMs := 150; downloadThroughputKbps := 1638.4;
         uploadThroughputKbps := 675 |}
  ∧ viewportConfig p
    = {| vp_width := 375; vp_height := 800; vp_deviceScaleFactor := 2 |}.
Proof.
  intros Hv Hpost Hp.
  assert (all_chars (other_than "=") v = true) as Hsep
    by (by rewrite <- toLowerCase_no_sep, Hv).
  assert (p = "mobile") as ->; [|done].
  unfold parseArgs in Hp. destruct Hp as [->| ->].
  - destruct (parse_loop_app pre (("--platform=" +:+ v) :: post)
                (mkArgs None "desktop")) as [st ->].
    simpl. rewrite parse_loop_no_platform_flag by done.
    by rewrite parse_step_platform_eq, Hv.
  - destruct (parse_loop_app pre ("--platform" :: v :: post)
                (mkArgs None "desktop")) as [st ->].
    cbn [parse_loop]. rewrite parse_loop_no_platform_flag by done.
    rewrite parse_step_other.
    + by rewrite parse_step_platform_next, Hv.
    + destruct v as [|c v]; [done|]. simpl in Hv.
      injection Hv as Hc _. unfold is_platform_flag.
      destruct c as [[] [] [] [] [] [] [] []]; try discriminate Hc; reflexivity.
Qed.

Lemma mobile_profile_witness :
  JS.toLowerCase "MOBILE" = "mobile"
  ∧ platform (parseArgs ["--url=https://example.com"; "--platform=MOBILE"]) = "mobile"
  ∧ throttling (platformConfig
      (platform (parseArgs ["--url=https://example.com"; "--platform=MOBILE"])))
    = {| rttMs := 150; throughputKbps := 1638.4; cpuSlowdownMultiplier := 4;
         requestLatencyMs := 150; downloadThroughputKbps := 1638.4;
         uploadThroughputKbps := 675 |}.
Proof.
  split; [reflexivity|].
  destruct (mobile_profile "MOBILE" ["--url=https://example.com"] []
              (platform (parseArgs ["--url=https://example.com"; "--platform=MOBILE"])))
    as (Hp & _ & _ & Ht & _); [reflexivity|reflexivity|left; reflexivity|].
  split; [exact Hp|exact Ht].
Defined.

(** ** Facts about a run *)

Lemma isValidPlatform_true p :
  isValidPlatform p = true
  ↔ JS.toLowerCase p = "desktop" ∨ JS.toLowerCase p = "mobile".
Proof.
  unfold isValidPlatform. rewrite bool_decide_eq_true.
  rewrite !elem_of_cons, elem_of_nil. tauto.
Qed.

(** With valid arguments the script reaches its [try] statement, having
    printed two lines. *)
Lemma run_valid w files0 args :
  valid_args w (parseArgs args) →
  ∃ u x, url (parseArgs args) = Some u ∧ URL_new w u = Some x ∧
    runLighthouseAudit w args (mkState [] files0 None false)
    = try_catch_finally (try_block w u (platform (parseArgs args))) catch_block
        (finally_block w)
        (mkState
           [console_log ("🚀 Starting Lighthouse accessibility audit for: " +:+ u);
            console_log ("📱 Platform: " +:+ platform (parseArgs args))]
           files0 None false).
Proof.
  unfold valid_args, runLighthouseAudit.
  destruct (parseArgs args) as [[u|] p]; simpl; [|by intros [? _]].
  intros (Hu & Hv & Hp). exists u.
  unfold isValidUrl in Hv |- *. destruct (URL_new w u) as [x|] eqn:Hx; [|done].
  exists x. split; [done|]. split; [done|].
  cbn. by rewrite Hu, Hp.
Qed.

(** With invalid arguments the script prints to the console, first on the
    error stream, and exits with code 1 with nothing else touched. *)
Lemma main_invalid w files0 args :
  ¬ valid_args w (parseArgs args) →
  ∃ msg rest,
    main w files0 args = (mkState (console_error msg :: rest) files0 None false, 1)
    ∧ Forall (λ e, is_console e = true) rest.
Proof.
  unfold valid_args, main, runLighthouseAudit.
  destruct (parseArgs args) as [u p]. simpl. intros H. cbv zeta.
  destruct (JS.truthy u) eqn:Hu;
    [destruct (isValidUrl w (default EmptyString u)) eqn:Hv;
      [destruct (isValidPlatform p) eqn:Hp|]|].
  1: by destruct H.
  all: cbn; do 2 eexists; split; [reflexivity|repeat constructor].
Qed.

Lemma main_invalid_code w files0 args :
  ¬ valid_args w (parseArgs args) → (main w files0 args).2 = 1.
Proof. intros Hv. by destruct (main_invalid w files0 args Hv) as (? & ? & -> & _). Qed.

Lemma main_invalid_console w files0 args i e :
  ¬ valid_args w (parseArgs args) →
  trace (main w files0 args).1 !! i = Some e → is_console e = true.
Proof.
  intros Hv. destruct (main_invalid w files0 args Hv) as (msg & rest & -> & Hrest).
  simpl. intros Hi.
  assert (Forall (λ e, is_console e = true) (console_error msg :: rest)) as Hall
    by by constructor.
  by eapply Forall_lookup_1 in Hall.
Qed.

Lemma html_jpg_distinct (dir base : string) :
  (dir, base +:+ ".html") ≠ (dir, base +:+ ".jpg").
Proof. intros [= H%app_inv_head_string]. discriminate H. Qed.

Lemma domain_of_spec h : domain_of h = spec_domain h.
Proof.
  unfold domain_of, spec_domain. induction h as [|c h IH]; [done|]. simpl.
  rewrite IH. unfold JS.not_alphanumeric, is_alphanumeric.
  by destruct (JS.isLower c || JS.isUpper c || JS.isDigit c).
Qed.

Lemma is_failed_spec a : is_failed a = true ↔ failed_audit a.
Proof.
  unfold is_failed, failed_audit. destruct (score a) as [x|]; simpl.
  - split; [intros ?; split; eauto|by intros [_ ?]].
  - split; [done|]. by intros [[? [=]] _].
Qed.

Lemma filter_is_failed (l : list Audit) :
  List.filter is_failed l = filter failed_audit l.
Proof.
  induction l as [|a l IH]; [done|]. simpl. rewrite filter_cons, IH.
  destruct (is_failed a) eqn:Ha.
  - apply is_failed_spec in Ha. by rewrite decide_True.
  - rewrite decide_False; [done|]. rewrite <- is_failed_spec. congruence.
Qed.

Lemma filter_values (l : list (string * Audit)) :
  length (filter failed_audit l.*2) = length (filter (λ ka, failed_audit ka.2) l).
Proof.
  induction l as [|[k a] l IH]; [done|]. rewrite fmap_cons, !filter_cons. simpl.
  destruct (decide (failed_audit a)); simpl; by rewrite IH.
Qed.

(** The number of failed audits the script counts over [Object.values] is
    the number of entries of the [audits] object whose score is a number
    below 1. *)
Lemma failed_count (m : gmap string Audit) :
  length (List.filter is_failed (JS.Object_values m))
  = size (filter (λ ka : string * Audit, failed_audit ka.2) m).
Proof.
  unfold JS.Object_values. rewrite filter_is_failed, filter_values.
  induction m as [|k a m Hk IH] using map_ind.
  - by rewrite map_to_list_empty, map_filter_empty, map_size_empty.
  - rewrite map_to_list_insert by done. rewrite filter_cons. simpl.
    destruct (decide (failed_audit a)) as [Ha|Ha].
    + rewrite map_filter_insert_True by done.
      rewrite map_size_insert_None by (rewrite map_lookup_filter_None; by left).
      simpl. by rewrite IH.
    + rewrite map_filter_insert_not' by (done || (intros y Hy; by rewrite Hk in Hy)).
      by rewrite IH.
Qed.

Lemma audit_count (m : gmap string Audit) : length (JS.Object_keys m) = size m.
Proof. unfold JS.Object_keys. by rewrite length_fmap, length_map_to_list. Qed.

Lemma null_score_percentage :
  JS.Number_toString (JS.Math_round (JS.ToNumber None * 100)%float) = "0".
Proof. reflexivity. Qed.

(** ** The claims about a run *)

(** The checks on what [parseArgs] returns.  When the parsed URL is
    missing ([null] or empty), or is rejected by the URL parser, or the
    parsed platform is neither [desktop] nor [mobile] up to the case of
    its letters, the script prints a diagnostic on the error stream first,
    exits with code 1, and has done nothing but print: no browser was
    launched and the files are as they were. *)
Theorem invalid_arguments_exit_1 (w : World) (files0 : gmap Path string)
    (args : list string) :
  let a := parseArgs args in
  JS.truthy (url a) = false
  ∨ isValidUrl w (default EmptyString (url a)) = false
  ∨ (JS.toLowerCase (platform a) ≠ "desktop" ∧ JS.toLowerCase (platform a) ≠ "mobile") →
  let r := main w files0 args in
  r.2 = 1
  ∧ (∃ msg rest, trace r.1 = console_error msg :: rest)
  ∧ Forall (λ e, is_console e = true) (trace r.1)
  ∧ files r.1 = files0
  ∧ browser_running r.1 = false.
Proof.
  intros a H r. subst a r.
  assert (¬ valid_args w (parseArgs args)) as Hv.
  { intros (Hu & Hurl & Hp). apply isValidPlatform_true in Hp.
    destruct H as [H|[H|[H1 H2]]]; [congruence|congruence|tauto]. }
  destruct (main_invalid w files0 args Hv) as (msg & rest & -> & Hrest). simpl.
  repeat split; eauto.
Qed.

Lemma invalid_arguments_exit_1_witness :
  isValidPlatform (platform (parseArgs ["https://example.com"; "--platform=tablet"]))
  = false
  ∧ (main sample_world ∅ ["https://example.com"; "--platform=tablet"]).2 = 1
  ∧ browser_running (main sample_world ∅ ["https://example.com"; "--platform=tablet"]).1
    = false.
Proof.
  split; [reflexivity|].
  destruct (invalid_arguments_exit_1 sample_world ∅
              ["https://example.com"; "--platform=tablet"])
    as (Hcode & _ & _ & _ & Hbrowser).
  - right; right. split; vm_compute; discriminate.
  - split; [exact Hcode|exact Hbrowser].
Defined.

(** C6.  In a run that gets as far as the report (valid arguments, the
    browser launched, the audit returned a result), the one file the
    script writes itself goes to the script's directory under the name
    [lighthouse-accessibility-{domain}-{platform}-{timestamp}.html]:
    the domain is the URL's host name with every character outside
    [A-Za-z0-9] replaced by [-], the timestamp is the ISO date and time
    down to the second with [-] for [:]. *)
Theorem html_report_path w files0 args chrome rr :
  valid_args w (parseArgs args) → launch w = Ok chrome → lighthouse w = Ok (Some rr) →
  let a := parseArgs args in
  let r := main w files0 args in
  ∃ u x, url a = Some u ∧ URL_new w u = Some x ∧
    let name := "lighthouse-accessibility-" +:+ spec_domain (hostname x) +:+ "-"
                +:+ platform a +:+ "-" +:+ spec_timestamp (now w) +:+ ".html" in
    trace r.1 !! 7%nat = Some (fs_writeFile (__dirname w, name) (report rr))
    ∧ ∀ i path data, trace r.1 !! i = Some (fs_writeFile path data) →
        i = 7%nat ∧ path = (__dirname w, name).
Proof.
  intros Hv Hl Hlh. cbv zeta.
  destruct (run_valid w files0 args Hv) as (u & x & Hu & Hx & Hrun).
  exists u, x. split; [done|]. split; [done|].
  unfold spec_timestamp. rewrite <- !domain_of_spec, <- !getTimestamp_format.
  destruct (main w files0 args) as [[? ? ? ?] ?] eqn:Hmain.
  run_cases Hrun Hx Hmain; simplify_eq.
  all: cbn [fst snd trace]; unfold path_join; rewrite ?app_assoc_string.
  all: split; [reflexivity|].
  all: intros i path data H; scan H i ltac:(by injection H as <- <-).
Qed.

Lemma html_report_path_witness :
  valid_args sample_world (parseArgs ["https://example.com"])
  ∧ trace (main sample_world ∅ ["https://example.com"]).1 !! 7%nat
    = Some (fs_writeFile
              ("/app/scripts",
               "lighthouse-accessibility-example-com-desktop-2024-01-15T10-30-45.html")
              "<html>report</html>").
Proof.
  assert (valid_args sample_world (parseArgs ["https://example.com"])) as Hv
    by (repeat split; reflexivity).
  split; [exact Hv|].
  destruct (html_report_path sample_world ∅ ["https://example.com"]
              (mkLaunchedChrome 9222) sample_result
              Hv eq_refl eq_refl) as (u & x & Hu & Hx & H7 & _).
  vm_compute in Hu. injection Hu as <-.
  vm_compute in Hx. injection Hx as <-.
  exact H7.
Defined.

(** C7.  In every run, a capture into the JPEG file comes after a call
    of [fs.writeFile] that succeeded, and the file that call wrote is on
    disk with its content when the process ends; more generally, whenever
    the HTML file was written it is still on disk at the end, whatever
    happened to the rendering. *)
Theorem jpeg_after_html_and_html_kept w files0 args :
  let r := main w files0 args in
  (∀ i path type quality,
     trace r.1 !! i = Some (page_screenshot path type quality) →
     ∃ j html data,
       (j < i)%nat ∧ trace r.1 !! j = Some (fs_writeFile html data)
       ∧ writeFile w = Ok tt ∧ files r.1 !! html = Some data)
  ∧ (∀ i html data,
       trace r.1 !! i = Some (fs_writeFile html data) → writeFile w = Ok tt →
       files r.1 !! html = Some data).
Proof.
  cbv zeta. destruct (decide (valid_args w (parseArgs args))) as [Hv|Hv].
  { destruct (run_valid w files0 args Hv) as (u & x & Hu & Hx & Hrun).
    destruct (main w files0 args) as [[? ? ? ?] ?] eqn:Hmain.
    run_cases Hrun Hx Hmain.
    all: cbn [fst snd trace files]; split;
      [ intros i path type quality H; scan H i idtac
      | intros i html data H Hw; try discriminate Hw;
        scan H i ltac:(injection H as <- <-) ].
    all: try (exists 7%nat; do 2 eexists; split; [lia|]; split; [reflexivity|];
              split; [done|]).
    all: unfold path_join;
      rewrite ?lookup_insert_ne by apply not_eq_sym, html_jpg_distinct;
      by rewrite lookup_insert_eq. }
  split; [intros i p t q H|intros i h d H _];
    by apply main_invalid_console in H.
Qed.

(** C7 at work: the capture fails, the process exits with code 1, and
    the HTML report is on disk. *)
Example html_kept_when_capture_fails :
  let r := main capture_fails_world ∅ ["https://example.com"] in
  r.2 = 1
  ∧ files r.1
    = {[ ("/app/scripts",
          "lighthouse-accessibility-example-com-desktop-2024-01-15T10-30-45.html")
         := "<html>report</html>" ]}.
Proof. split; reflexivity. Qed.

(** C8.  A run that ends with exit code 0 has printed, as its last
    console lines: the summary header, the URL, the platform, the score
    as [Math.round(score * 100)] out of 100, the number of audits, the
    number of failed audits (those whose score is a number below 1) when
    that number is positive and no such line otherwise, and the closing
    line. *)
Theorem summary_printed w files0 args :
  (main w files0 args).2 = 0 →
  ∃ u rr pre,
    url (parseArgs args) = Some u ∧ lighthouse w = Ok (Some rr) ∧
    let total := size (audits (lhr rr)) in
    let failed :=
      size (filter (λ ka : string * Audit, failed_audit ka.2) (audits (lhr rr))) in
    let percentage :=
      JS.Math_round (JS.ToNumber (accessibility_score (lhr rr)) * 100)%float in
    trace (main w files0 args).1
    = pre
      ++ [console_log (nl +:+ "📊 Audit Summary:");
          console_log ("   URL: " +:+ u);
          console_log ("   Platform: " +:+ platform (parseArgs args));
          console_log ("   Accessibility Score: " +:+ JS.Number_toString percentage
                       +:+ "/100");
          console_log ("   Total Audits: " +:+ pretty total)]
      ++ (if decide (0 < failed)%nat
          then [console_log ("   Failed Audits: " +:+ pretty failed)] else [])
      ++ [console_log (nl +:+ "✅ Audit completed successfully!"); chrome_kill].
Proof.
  destruct (decide (valid_args w (parseArgs args))) as [Hv|Hv];
    [|by rewrite main_invalid_code].
  destruct (run_valid w files0 args Hv) as (u & x & Hu & Hx & Hrun).
  destruct (main w files0 args) as [[? ? ? ?] ?] eqn:Hmain.
  run_cases Hrun Hx Hmain.
  all: cbn [fst snd trace]; intros Hcode; try discriminate Hcode.
  all: exists u; eexists;
    match goal with |- ∃ pre, _ ∧ _ ∧ ?l = _ => exists (take 15 l) end.
  all: split; [done|]; split; [done|]; cbn.
  all: rewrite failed_count in *; rewrite audit_count.
  - rewrite decide_True by (by apply Nat.ltb_lt). reflexivity.
  - rewrite decide_False; [reflexivity|].
    match goal with Hb : (0 <? _)%nat = false |- _ => apply Nat.ltb_ge in Hb; lia end.
Qed.

Lemma summary_printed_witness :
  (main sample_world ∅ ["https://example.com"]).2 = 0
  ∧ ∃ pre,
      trace (main sample_world ∅ ["https://example.com"]).1
      = pre ++ [console_log (nl +:+ "📊 Audit Summary:");
                console_log "   URL: https://example.com";
                console_log "   Platform: desktop";
                console_log "   Accessibility Score: 95/100";
                console_log "   Total Audits: 3";
                console_log "   Failed Audits: 1";
                console_log (nl +:+ "✅ Audit completed successfully!");
                chrome_kill].
Proof.
  split; [reflexivity|].
  destruct (summary_printed sample_world ∅ ["https://example.com"] eq_refl)
    as (u & rr & pre & Hu & Hlh & Htrace).
  vm_compute in Hu. injection Hu as <-.
  injection Hlh as <-.
  exists pre. exact Htrace.
Defined.

(** C9.  Whenever the script calls the renderer, the request names the
    sibling of the HTML file (same directory and base name, extension
    [.jpg]), the type [jpeg] and quality 100, with the report as HTML.
    The hook waits 2000 ms and then sets the viewport of the platform: a
    viewport is only ever set right after that wait, a capture only ever
    happens right after the two, into the requested file, and it does
    happen when the renderer's start and the two page operations succeed.
    When the capture succeeds too, the image it produced is on disk at
    that sibling path when the process ends. *)
Theorem render_request_and_hook w files0 args i request :
  let r := main w files0 args in
  trace r.1 !! i = Some (nodeHtmlToImage request) →
  ∃ base html,
    trace r.1 !! 7%nat = Some (fs_writeFile (__dirname w, base +:+ ".html") html)
    ∧ request = {| img_output := (__dirname w, base +:+ ".jpg"); img_html := html;
                   img_type := "jpeg"; img_quality := 100;
                   img_puppeteerArgs := ["--no-sandbox"; "--disable-setuid-sandbox"] |}
    ∧ (∀ k path type quality,
         trace r.1 !! k = Some (page_screenshot path type quality) →
         k = (i + 3)%nat
         ∧ trace r.1 !! (i + 1)%nat = Some (page_waitForTimeout 2000)
         ∧ trace r.1 !! (i + 2)%nat
           = Some (page_setViewport (viewportConfig (platform (parseArgs args))))
         ∧ path = (__dirname w, base +:+ ".jpg") ∧ type = "jpeg" ∧ quality = 100)
    ∧ (∀ k viewport,
         trace r.1 !! k = Some (page_setViewport viewport) →
         k = (i + 2)%nat
         ∧ trace r.1 !! (i + 1)%nat = Some (page_waitForTimeout 2000)
         ∧ viewport = viewportConfig (platform (parseArgs args)))
    ∧ (render_setup w = Ok tt → waitForTimeout w = Ok tt → setViewport w = Ok tt →
       trace r.1 !! (i + 3)%nat
       = Some (page_screenshot (__dirname w, base +:+ ".jpg") "jpeg" 100))
    ∧ (∀ image,
         render_setup w = Ok tt → waitForTimeout w = Ok tt → setViewport w = Ok tt →
         screenshot w = Ok image →
         files r.1 !! (__dirname w, base +:+ ".jpg") = Some image).
Proof.
  cbv zeta. destruct (decide (valid_args w (parseArgs args))) as [Hv|Hv];
    [|intros H; by apply main_invalid_console in H].
  destruct (run_valid w files0 args Hv) as (u & x & Hu & Hx & Hrun).
  destruct (main w files0 args) as [[? ? ? ?] ?] eqn:Hmain.
  run_cases Hrun Hx Hmain.
  all: cbn [fst snd trace files]; intros H; scan H i ltac:(injection H as <-).
  all: do 2 eexists; split; [reflexivity|]; split; [reflexivity|].
  all: split; [intros k path type quality H; scan H k ltac:(by injection H as <- <- <-)|].
  all: split; [intros k viewport H; scan H k ltac:(by injection H as <-)|].
  all: split; [by intros|].
  all: intros image ? ? ? ?; simplify_eq.
  all: unfold path_join; by rewrite lookup_insert_eq.
Qed.

Lemma render_request_and_hook_witness :
  ∃ base html,
    trace (main sample_world ∅ ["https://example.com"]).1 !! 7%nat
    = Some (fs_writeFile ("/app/scripts", base +:+ ".html") html)
    ∧ trace (main sample_world ∅ ["https://example.com"]).1 !! 11%nat
      = Some (page_waitForTimeout 2000)
    ∧ trace (main sample_world ∅ ["https://example.com"]).1 !! 12%nat
      = Some (page_setViewport
                {| vp_width := 1200; vp_height := 800; vp_deviceScaleFactor := 1 |})
    ∧ trace (main sample_world ∅ ["https://example.com"]).1 !! 13%nat
      = Some (page_screenshot ("/app/scripts", base +:+ ".jpg") "jpeg" 100)
    ∧ files (main sample_world ∅ ["https://example.com"]).1
        !! ("/app/scripts", base +:+ ".jpg")
      = Some "<jpeg>".
Proof.
  destruct (render_request_and_hook sample_world ∅ ["https://example.com"] 10 _ eq_refl)
    as (base & html & H7 & _ & Hcapture & _ & Hdone & Hfile).
  exists base, html. split; [exact H7|].
  destruct (Hcapture _ _ _ _ (Hdone eq_refl eq_refl eq_refl)) as (_ & H11 & H12 & _).
  split; [exact H11|]. split; [exact H12|].
  split; [exact (Hdone eq_refl eq_refl eq_refl)|].
  exact (Hfile "<jpeg>" eq_refl eq_refl eq_refl eq_refl).
Defined.

(** C10.  When the report's accessibility score is [null] and every
    collaborator answers, the run ends with exit code 0, the score line
    reads [Accessibility Score: 0/100], and nothing is printed on the
    error stream. *)
Theorem null_score_prints_zero w files0 args rr :
  valid_args w (parseArgs args) → collaborators_succeed w rr →
  accessibility_score (lhr rr) = None →
  let r := main w files0 args in
  r.2 = 0
  ∧ trace r.1 !! 18%nat = Some (console_log "   Accessibility Score: 0/100")
  ∧ ∀ i msg, trace r.1 !! i ≠ Some (console_error msg).
Proof.
  intros Hv ([chrome Hl] & Hlh & Hwf & Hrs & Hwt & Hsv & [image Hss] & Hk) Hscore.
  cbv zeta.
  destruct (run_valid w files0 args Hv) as (u & x & Hu & Hx & Hrun).
  destruct (main w files0 args) as [[? ? ? ?] ?] eqn:Hmain.
  run_cases Hrun Hx Hmain; simplify_eq.
  all: cbn [fst snd trace]; rewrite Hscore, null_score_percentage.
  all: split; [done|]; split; [done|].
  all: intros i msg H; scan H i idtac.
Qed.

Lemma null_score_prints_zero_witness :
  valid_args null_score_world (parseArgs ["https://example.com"])
  ∧ (main null_score_world ∅ ["https://example.com"]).2 = 0
  ∧ trace (main null_score_world ∅ ["https://example.com"]).1 !! 18%nat
    = Some (console_log "   Accessibility Score: 0/100").
Proof.
  assert (valid_args null_score_world (parseArgs ["https://example.com"])) as Hv
    by (repeat split; reflexivity).
  split; [exact Hv|].
  destruct (null_score_prints_zero null_score_world ∅ ["https://example.com"]
              null_score_result Hv)
    as (Hcode & Hline & _).
  - unfold collaborators_succeed, is_Ok.
    repeat split; try reflexivity; eexists; reflexivity.
  - reflexivity.
  - split; [exact Hcode|exact Hline].
Defined.

(** ** The browser on the error path *)

(** X14.  When the browser was launched and the run ends with exit code 1
    although [chrome.kill()] would have succeeded, [chrome.kill()] was
    never called: the [catch] block has left through [process.exit(1)],
    so the [finally] block did not run, and the browser is still running. *)
Lemma error_path_skips_kill w files0 args chrome :
  valid_args w (parseArgs args) → launch w = Ok chrome → kill w = Ok tt →
  let r := main w files0 args in
  r.2 = 1 →
  browser_running r.1 = true ∧ ∀ i, trace r.1 !! i ≠ Some chrome_kill.
Proof.
  intros Hv Hl Hk. cbv zeta.
  destruct (run_valid w files0 args Hv) as (u & x & Hu & Hx & Hrun).
  destruct (main w files0 args) as [[? ? ? ?] ?] eqn:Hmain.
  run_cases Hrun Hx Hmain; simplify_eq.
  all: cbn [fst snd trace browser_running]; intros Hcode; try discriminate Hcode.
  all: split; [done|]; intros i H; scan H i idtac.
Qed.

(** X15.  On the way out with exit code 0 the browser has been terminated:
    [chrome.kill()] is the last call of the run. *)
Lemma success_path_kills w files0 args :
  let r := main w files0 args in
  r.2 = 0 →
  browser_running r.1 = false ∧ last (trace r.1) = Some chrome_kill.
Proof.
  cbv zeta. destruct (decide (valid_args w (parseArgs args))) as [Hv|Hv];
    [|by rewrite main_invalid_code].
  destruct (run_valid w files0 args Hv) as (u & x & Hu & Hx & Hrun).
  destruct (main w files0 args) as [[? ? ? ?] ?] eqn:Hmain.
  run_cases Hrun Hx Hmain.
  all: cbn [fst snd trace browser_running]; intros Hcode; try discriminate Hcode.
  all: split; reflexivity.
Qed.

(** C1 (the code departs from it).  The browser launches, the audit
    throws, the error is printed and the process exits with code 1: the
    trace has a launch and no [chrome_kill], and the browser is left
    running. *)
Theorem browser_left_running_when_audit_throws :
  main audit_fails_world ∅ ["https://example.com"]
  = ({| trace :=
          [console_log "🚀 Starting Lighthouse accessibility audit for: https://example.com";
           console_log "📱 Platform: desktop";
           console_log "🔧 Launching Chrome...";
           chromeLauncher_launch ["--headless"; "--no-sandbox"; "--disable-dev-shm-usage"];
           console_log "platform desktop";
           console_log "🔍 Running Lighthouse audit...";
           lighthouse_run "https://example.com"
             {| logLevel := "info"; output := "html";
                onlyCategories := ["accessibility"]; port := 9222;
                config := platformConfig "desktop" |};
           console_error "❌ Error during audit: PROTOCOL_TIMEOUT"];
        files := ∅;
        chrome := Some (mkLaunchedChrome 9222);
        browser_running := true |}, 1).
Proof. reflexivity. Qed.

(** ** More about [parseArgs] *)

Lemma toLowerChar_idem c : JS.toLowerChar (JS.toLowerChar c) = JS.toLowerChar c.
Proof. destruct c as [[] [] [] [] [] [] [] []]; reflexivity. Qed.

Lemma toLowerCase_idem s : JS.toLowerCase (JS.toLowerCase s) = JS.toLowerCase s.
Proof. induction s as [|c s IH]; [done|]. simpl. by rewrite toLowerChar_idem, IH. Qed.

Lemma parse_step_lowercase a rest st :
  JS.toLowerCase (platform st) = platform st →
  JS.toLowerCase (platform (parse_step a rest st)) = platform (parse_step a rest st).
Proof.
  intros Hst. unfold parse_step.
  repeat case_match; simpl; by rewrite ?toLowerCase_idem.
Qed.

Lemma parse_loop_lowercase args st :
  JS.toLowerCase (platform st) = platform st →
  JS.toLowerCase (platform (parse_loop args st)) = platform (parse_loop args st).
Proof.
  revert st. induction args as [|a args IH]; intros st Hst; [done|].
  simpl. by apply IH, parse_step_lowercase.
Qed.

Lemma parseArgs_lowercase (args : list string) :
  JS.toLowerCase (platform (parseArgs args)) = platform (parseArgs args).
Proof. by apply parse_loop_lowercase. Qed.

(** X1.  The platform [parseArgs] returns is in lower case, whatever the
    arguments.  So a parsed platform that passes [isValidPlatform] is
    literally [desktop] or [mobile], and the comparisons
    [platform === "mobile"] that pick the profile and the viewport pick
    the ones of that platform.  ([isValidPlatform] by itself also accepts
    [MOBILE], for which the comparison would pick the desktop profile; the
    lower-casing in [parseArgs] keeps the two apart.) *)
Theorem parsed_platform_normal_form (args : list string) :
  let p := platform (parseArgs args) in
  JS.toLowerCase p = p
  ∧ (isValidPlatform p = true →
     (p = "desktop" ∨ p = "mobile")
     ∧ formFactor (platformConfig p) = p
     ∧ se_mobile (screenEmulation (platformConfig p)) = bool_decide (p = "mobile")
     ∧ vp_width (viewportConfig p) = (if bool_decide (p = "mobile") then 375 else 1200))
  ∧ isValidPlatform "MOBILE" = true
  ∧ formFactor (platformConfig "MOBILE") = "desktop".
Proof.
  intros p. split; [apply parseArgs_lowercase|]. split; [|done].
  intros Hp. apply isValidPlatform_true in Hp.
  unfold p in *. rewrite parseArgs_lowercase in Hp.
  destruct Hp as [-> | ->]; repeat split; auto.
Qed.

Lemma not_flag_not_url_flag a : JS.startsWith a "--" = false → is_url_flag a = false.
Proof.
  intros Ha. unfold is_url_flag. apply orb_false_iff. split.
  - destruct (JS.startsWith a "--url=") eqn:E; [|done].
    apply startsWith_inv in E as [r ->]. discriminate Ha.
  - destruct (String.eqb_spec a "--url") as [->|]; [discriminate Ha|done].
Qed.

Lemma not_flag_not_platform_flag a :
  JS.startsWith a "--" = false → is_platform_flag a = false.
Proof.
  intros Ha. unfold is_platform_flag. apply orb_false_iff. split.
  - destruct (JS.startsWith a "--platform=") eqn:E; [|done].
    apply startsWith_inv in E as [r ->]. discriminate Ha.
  - destruct (String.eqb_spec a "--platform") as [->|]; [discriminate Ha|done].
Qed.

Lemma truthy_nonempty v : v ≠ EmptyString → JS.truthy (Some v) = true.
Proof. by destruct v. Qed.

(** Once a URL is set, only a URL argument changes it. *)
Lemma parse_step_url_kept a rest st :
  JS.truthy (url st) = true → is_url_flag a = false →
  url (parse_step a rest st) = url st.
Proof.
  unfold is_url_flag, parse_step. intros Hst [H1 H2]%orb_false_iff.
  rewrite H1, H2, Hst. cbn [andb negb].
  rewrite andb_false_r. by repeat case_match.
Qed.

Lemma parse_loop_url_kept args st :
  JS.truthy (url st) = true → existsb is_url_flag args = false →
  url (parse_loop args st) = url st.
Proof.
  revert st. induction args as [|a args IH]; intros st Hst; [done|]. simpl.
  intros [Ha Hargs]%orb_false_iff.
  rewrite IH; [by apply parse_step_url_kept| |done].
  by rewrite parse_step_url_kept.
Qed.

(** A flag that is not a URL argument leaves the URL as it is. *)
Lemma parse_step_other_flag a rest st :
  is_other_flag a = true → url (parse_step a rest st) = url st.
Proof.
  unfold is_other_flag, is_url_flag, parse_step.
  intros [Hflag [H1 H2]%negb_true_iff%orb_false_iff]%andb_true_iff.
  rewrite H1, H2, Hflag. cbn [andb negb]. by repeat case_match.
Qed.

Lemma parse_loop_other_flags pre rest st :
  forallb is_other_flag pre = true →
  ∃ st', parse_loop (pre ++ rest) st = parse_loop rest st' ∧ url st' = url st.
Proof.
  revert st. induction pre as [|a pre IH]; intros st; simpl; [eauto|].
  intros [Ha Hpre]%andb_true_iff.
  destruct (IH (parse_step a (pre ++ rest) st) Hpre) as (st' & -> & Hst').
  exists st'. split; [done|]. by rewrite Hst', parse_step_other_flag.
Qed.

(** X2.  The last URL argument decides: after [--url=<value>] (a value
    without [=]) or [--url <value>] (a value that is not itself a URL
    argument), with a non-empty value and no URL argument behind it, the
    URL is that value, whatever stands before it, and no positional
    argument behind it replaces it. *)
Theorem last_url_argument_wins (v : string) (pre post : list string) :
  v ≠ EmptyString → existsb is_url_flag post = false →
  (all_chars (other_than "=") v = true →
   url (parseArgs (pre ++ ("--url=" +:+ v) :: post)) = Some v)
  ∧ (is_url_flag v = false →
     url (parseArgs (pre ++ "--url" :: v :: post)) = Some v).
Proof.
  intros Hv%truthy_nonempty Hpost. unfold parseArgs. split; intros Hform.
  - destruct (parse_loop_app pre (("--url=" +:+ v) :: post) (mkArgs None "desktop"))
      as [st ->].
    simpl. rewrite parse_loop_url_kept; rewrite ?url_flag_value_whole; done.
  - destruct (parse_loop_app pre ("--url" :: v :: post) (mkArgs None "desktop"))
      as [st ->].
    cbn [parse_loop].
    assert (url (parse_step v post (parse_step "--url" (v :: post) st)) = Some v)
      as Hstep by (by rewrite parse_step_url_kept).
    rewrite parse_loop_url_kept; rewrite ?Hstep; done.
Qed.

Lemma last_url_argument_wins_witness :
  url (parseArgs ["https://a.example"; "--url=https://b.example"; "https://c.example"])
  = Some "https://b.example".
Proof.
  apply (last_url_argument_wins "https://b.example" ["https://a.example"]
           ["https://c.example"]); [discriminate|reflexivity|reflexivity].
Defined.

(** X3.  Without a URL argument before it, the first argument that does
    not start with [--] is the URL, and later such arguments are ignored. *)
Theorem first_positional_is_url (u : string) (pre post : list string) :
  forallb is_other_flag pre = true →
  JS.startsWith u "--" = false → u ≠ EmptyString →
  existsb is_url_flag post = false →
  url (parseArgs (pre ++ u :: post)) = Some u.
Proof.
  intros Hpre Hu Hne%truthy_nonempty Hpost. unfold parseArgs.
  destruct (parse_loop_other_flags pre (u :: post) (mkArgs None "desktop") Hpre)
    as (st & -> & Hst). simpl in Hst.
  assert (parse_step u post st = mkArgs (Some u) (platform st)) as Hstep.
  { pose proof (not_flag_not_url_flag u Hu) as [H1 H2]%orb_false_iff.
    pose proof (not_flag_not_platform_flag u Hu) as [H3 H4]%orb_false_iff.
    unfold parse_step. by rewrite H1, H2, H3, H4, Hu, Hst. }
  simpl. rewrite parse_loop_url_kept; rewrite ?Hstep; done.
Qed.

Lemma first_positional_is_url_witness :
  url (parseArgs ["--platform=mobile"; "https://a.example"; "https://b.example"])
  = Some "https://a.example".
Proof.
  apply (first_positional_is_url "https://a.example" ["--platform=mobile"]
           ["https://b.example"]); [reflexivity|reflexivity|discriminate|reflexivity].
Defined.

(** X4.  The value of [--platform <value>] is read twice: as the platform,
    and, being an argument that does not start with [--], as the URL when
    none is set yet.  A URL given positionally behind it is then ignored. *)
Theorem platform_value_taken_as_url (v : string) (post : list string) :
  JS.startsWith v "--" = false → v ≠ EmptyString →
  existsb is_url_flag post = false → existsb is_platform_flag post = false →
  parseArgs ("--platform" :: v :: post) = mkArgs (Some v) (JS.toLowerCase v).
Proof.
  intros Hv Hne%truthy_nonempty Hurl Hplat.
  pose proof (not_flag_not_url_flag v Hv) as [H1 H2]%orb_false_iff.
  pose proof (not_flag_not_platform_flag v Hv) as [H3 H4]%orb_false_iff.
  assert (parse_step v post (mkArgs None (JS.toLowerCase v))
          = mkArgs (Some v) (JS.toLowerCase v)) as Hstep
    by (unfold parse_step; by rewrite H1, H2, H3, H4, Hv).
  unfold parseArgs. cbn [parse_loop]. rewrite parse_step_platform_next.
  cbn [url]. rewrite Hstep.
  pose proof (parse_loop_url_kept post (mkArgs (Some v) (JS.toLowerCase v)) Hne Hurl).
  pose proof (parse_loop_no_platform_flag post (mkArgs (Some v) (JS.toLowerCase v)) Hplat).
  destruct (parse_loop post _) as [u p]. simpl in *. congruence.
Qed.

Lemma platform_value_taken_as_url_witness :
  parseArgs ["--platform"; "mobile"; "https://example.com"]
  = mkArgs (Some "mobile") "mobile".
Proof.
  apply (platform_value_taken_as_url "mobile" ["https://example.com"]);
    [reflexivity|discriminate|reflexivity|reflexivity].
Defined.

(** ** More about a run *)

Lemma main_no_url w files0 args :
  JS.truthy (url (parseArgs args)) = false →
  main w files0 args = (mkState usage_lines files0 None false, 1).
Proof.
  unfold main, runLighthouseAudit. destruct (parseArgs args) as [u p]. simpl.
  intros Hu. cbv zeta. by rewrite Hu.
Qed.

Lemma main_bad_url w files0 args :
  JS.truthy (url (parseArgs args)) = true →
  isValidUrl w (default EmptyString (url (parseArgs args))) = false →
  main w files0 args
  = (mkState [console_error "❌ Error: Invalid URL provided"] files0 None false, 1).
Proof.
  unfold main, runLighthouseAudit. destruct (parseArgs args) as [u p]. simpl.
  intros Hu Hv. cbv zeta. by rewrite Hu, Hv.
Qed.

Lemma main_bad_platform w files0 args :
  JS.truthy (url (parseArgs args)) = true →
  isValidUrl w (default EmptyString (url (parseArgs args))) = true →
  isValidPlatform (platform (parseArgs args)) = false →
  main w files0 args
  = (mkState [console_error "❌ Error: Invalid platform. Use 'desktop' or 'mobile'"]
       files0 None false, 1).
Proof.
  unfold main, runLighthouseAudit. destruct (parseArgs args) as [u p]. simpl.
  intros Hu Hv Hp. cbv zeta. by rewrite Hu, Hv, Hp.
Qed.

(** X5.  When every argument starts with [--] and none is a URL argument
    (in particular when there is no argument at all), no URL is found: the
    script prints the error line and the three usage lines and exits with
    code 1, having touched nothing. *)
Theorem usage_without_url_argument (w : World) (files0 : gmap Path string)
    (args : list string) :
  forallb is_other_flag args = true →
  url (parseArgs args) = None
  ∧ main w files0 args = (mkState usage_lines files0 None false, 1).
Proof.
  intros Hargs.
  assert (url (parseArgs args) = None) as Hurl.
  { unfold parseArgs.
    destruct (parse_loop_other_flags args [] (mkArgs None "desktop") Hargs)
      as (st & Heq & Hst).
    rewrite List.app_nil_r in Heq. by rewrite Heq. }
  split; [done|]. apply main_no_url. by rewrite Hurl.
Qed.

Lemma usage_without_url_argument_witness :
  main sample_world ∅ ["--platform=mobile"; "--verbose"]
  = (mkState usage_lines ∅ None false, 1).
Proof.
  apply (usage_without_url_argument sample_world ∅ ["--platform=mobile"; "--verbose"]).
  reflexivity.
Defined.

(** X6.  The three checks run in order and the first that fails decides
    what is printed: with no URL the error line and the usage text, also
    when the platform is invalid too; with a URL the parser rejects, one
    line saying so; with a valid URL and an invalid platform, one line
    naming the two platforms.  Each time the exit code is 1 and nothing
    else has happened. *)
Theorem diagnostic_of_first_failed_check (w : World) (files0 : gmap Path string)
    (args : list string) :
  let a := parseArgs args in
  (JS.truthy (url a) = false →
   main w files0 args = (mkState usage_lines files0 None false, 1))
  ∧ (JS.truthy (url a) = true →
     isValidUrl w (default EmptyString (url a)) = false →
     main w files0 args
     = (mkState [console_error "❌ Error: Invalid URL provided"] files0 None false, 1))
  ∧ (JS.truthy (url a) = true →
     isValidUrl w (default EmptyString (url a)) = true →
     isValidPlatform (platform a) = false →
     main w files0 args
     = (mkState [console_error "❌ Error: Invalid platform. Use 'desktop' or 'mobile'"]
          files0 None false, 1)).
Proof.
  cbv zeta. split; [apply main_no_url|]. split; [apply main_bad_url|apply main_bad_platform].
Qed.

(** No stage fails exactly when every collaborator up to the capture
    answers. *)
Lemma first_failure_None w :
  first_failure w = None
  ↔ is_Ok (launch w) ∧ (∃ rr, lighthouse w = Ok (Some rr)) ∧ writeFile w = Ok tt
    ∧ render_setup w = Ok tt ∧ waitForTimeout w = Ok tt ∧ setViewport w = Ok tt
    ∧ is_Ok (screenshot w).
Proof.
  unfold first_failure, is_Ok. split.
  - repeat case_match; try discriminate; intros _.
    repeat match goal with u : unit |- _ => destruct u end.
    repeat split; eauto.
  - intros ([c ->] & [rr ->] & -> & -> & -> & -> & [img ->]). done.
Qed.

(** X7.  The exit code is 0 or 1, and it is 0 exactly when the arguments
    are valid, every collaborator up to the capture answers and
    [chrome.kill()] returns. *)
Theorem exit_code_0_iff (w : World) (files0 : gmap Path string) (args : list string) :
  let code := (main w files0 args).2 in
  (code = 0 ∨ code = 1)
  ∧ (code = 0
     ↔ valid_args w (parseArgs args) ∧ first_failure w = None ∧ kill w = Ok tt).
Proof.
  cbv zeta. destruct (decide (valid_args w (parseArgs args))) as [Hv|Hv].
  2:{ rewrite main_invalid_code by done. split; [by right|]. split; [done|tauto]. }
  unfold first_failure.
  destruct (run_valid w files0 args Hv) as (u & x & Hu & Hx & Hrun).
  destruct (main w files0 args) as [[? ? ? ?] ?] eqn:Hmain.
  run_cases Hrun Hx Hmain.
  all: cbn [fst snd]; split; [auto|]; split; [try done|intros (_ & ? & ?); done].
  all: intros _; repeat split; auto.
Qed.

(** X8.  The audit is asked for at most once, after the browser has been
    launched: for the parsed URL, over the port of the launched browser,
    with HTML output, the accessibility category alone, log level [info]
    and the profile of the parsed platform. *)
Theorem lighthouse_call_options (w : World) (files0 : gmap Path string)
    (args : list string) i u options :
  trace (main w files0 args).1 !! i = Some (lighthouse_run u options) →
  i = 6%nat
  ∧ url (parseArgs args) = Some u
  ∧ ∃ chrome,
      launch w = Ok chrome
      ∧ trace (main w files0 args).1 !! 3%nat
        = Some (chromeLauncher_launch
                  ["--headless"; "--no-sandbox"; "--disable-dev-shm-usage"])
      ∧ options
        = {| logLevel := "info"; output := "html"; onlyCategories := ["accessibility"];
             port := chrome_port chrome;
             config := platformConfig (platform (parseArgs args)) |}.
Proof.
  destruct (decide (valid_args w (parseArgs args))) as [Hv|Hv];
    [|intros H; by apply main_invalid_console in H].
  destruct (run_valid w files0 args Hv) as (u' & x & Hu & Hx & Hrun).
  destruct (main w files0 args) as [[? ? ? ?] ?] eqn:Hmain.
  run_cases Hrun Hx Hmain.
  all: cbn [fst snd trace]; intros H; scan H i ltac:(injection H as <- <-).
  all: split; [done|]; split; [done|]; eexists; split; [reflexivity|]; by split.
Qed.

Lemma lighthouse_call_options_witness :
  trace (main sample_world ∅ ["https://example.com"]).1 !! 6%nat
  = Some (lighthouse_run "https://example.com"
            {| logLevel := "info"; output := "html"; onlyCategories := ["accessibility"];
               port := 9222; config := platformConfig "desktop" |})
  ∧ url (parseArgs ["https://example.com"]) = Some "https://example.com".
Proof.
  split; [reflexivity|].
  apply (lighthouse_call_options sample_world ∅ ["https://example.com"] 6
           "https://example.com"
           {| logLevel := "info"; output := "html"; onlyCategories := ["accessibility"];
              port := 9222; config := platformConfig "desktop" |}).
  reflexivity.
Defined.

(** X9.  With valid arguments, when a collaborator fails the script stops
    there: its last output is the error line with the message of the
    first collaborator that failed ("Lighthouse audit failed to return
    results" when the audit resolved to nothing), printed once, and the
    exit code is 1. *)
Theorem first_failure_reported (w : World) (files0 : gmap Path string)
    (args : list string) (msg : string) :
  valid_args w (parseArgs args) → first_failure w = Some msg →
  let r := main w files0 args in
  r.2 = 1
  ∧ last (trace r.1) = Some (console_error ("❌ Error during audit: " +:+ msg))
  ∧ ∀ i m, trace r.1 !! i = Some (console_error m) → S i = length (trace r.1).
Proof.
  intros Hv Hfail. cbv zeta. unfold first_failure in Hfail.
  destruct (run_valid w files0 args Hv) as (u & x & Hu & Hx & Hrun).
  destruct (main w files0 args) as [[? ? ? ?] ?] eqn:Hmain.
  run_cases Hrun Hx Hmain; simplify_eq.
  all: cbn [fst snd trace]; split; [done|]; split; [done|].
  all: intros i m H; scan H i ltac:(done).
Qed.

Lemma first_failure_reported_witness :
  first_failure launch_fails_world = Some "ECONNREFUSED"
  ∧ trace (main launch_fails_world ∅ ["https://example.com"]).1
    = [console_log "🚀 Starting Lighthouse accessibility audit for: https://example.com";
       console_log "📱 Platform: desktop";
       console_log "🔧 Launching Chrome...";
       chromeLauncher_launch ["--headless"; "--no-sandbox"; "--disable-dev-shm-usage"];
       console_error "❌ Error during audit: ECONNREFUSED"]
  ∧ (main launch_fails_world ∅ ["https://example.com"]).2 = 1.
Proof.
  split; [reflexivity|]. split; [reflexivity|].
  apply (first_failure_reported launch_fails_world ∅ ["https://example.com"]
           "ECONNREFUSED"); [repeat split; reflexivity|reflexivity].
Defined.

(** X10.  When everything up to the summary succeeds and [chrome.kill()]
    then throws, the closing line has already been printed and both files
    are on disk, yet the rejection reaches the [unhandledRejection]
    handler and the exit code is 1; nothing was printed by the [catch]
    block. *)
Theorem kill_failure_exits_1 (w : World) (files0 : gmap Path string)
    (args : list string) (e : Error) :
  valid_args w (parseArgs args) → first_failure w = None → kill w = Fails e →
  let r := main w files0 args in
  r.2 = 1
  ∧ last (trace r.1) = Some (unhandledRejection e)
  ∧ console_log (nl +:+ "✅ Audit completed successfully!") ∈ trace r.1
  ∧ (∃ html data jpg,
       trace r.1 !! 7%nat = Some (fs_writeFile html data)
       ∧ trace r.1 !! 13%nat = Some (page_screenshot jpg "jpeg" 100)
       ∧ files r.1 !! html = Some data ∧ is_Some (files r.1 !! jpg))
  ∧ ∀ i m, trace r.1 !! i ≠ Some (console_error m).
Proof.
  intros Hv Hfail Hk. cbv zeta. unfold first_failure in Hfail.
  destruct (run_valid w files0 args Hv) as (u & x & Hu & Hx & Hrun).
  destruct (main w files0 args) as [[? ? ? ?] ?] eqn:Hmain.
  run_cases Hrun Hx Hmain; simplify_eq.
  all: cbn [fst snd trace files]; split; [done|]; split; [done|].
  all: split; [repeat constructor|].
  all: split; [|intros i m H; scan H i idtac].
  all: do 3 eexists; split; [reflexivity|]; split; [reflexivity|].
  all: unfold path_join;
    rewrite lookup_insert_ne by apply not_eq_sym, html_jpg_distinct;
    rewrite !lookup_insert_eq; by split.
Qed.

Lemma kill_failure_exits_1_witness :
  first_failure kill_fails_world = None
  ∧ (main kill_fails_world ∅ ["https://example.com"]).2 = 1
  ∧ last (trace (main kill_fails_world ∅ ["https://example.com"]).1)
    = Some (unhandledRejection (mkError "ESRCH")).
Proof.
  split; [reflexivity|].
  destruct (kill_failure_exits_1 kill_fails_world ∅ ["https://example.com"]
              (mkError "ESRCH")) as (Hcode & Hlast & _);
    [repeat split; reflexivity|reflexivity|reflexivity|].
  split; [exact Hcode|exact Hlast].
Defined.

(** X11.  A run never removes a file and never writes outside the
    script's directory: every file present before is present after, a
    path in another directory has the content it had, and a path whose
    content changed is one the script wrote the report to or the renderer
    captured into. *)
Theorem files_only_added (w : World) (files0 : gmap Path string) (args : list string) :
  let r := main w files0 args in
  (∀ p, is_Some (files0 !! p) → is_Some (files r.1 !! p))
  ∧ (∀ p, p.1 ≠ __dirname w → files r.1 !! p = files0 !! p)
  ∧ (∀ p, files r.1 !! p ≠ files0 !! p →
       (∃ i data, trace r.1 !! i = Some (fs_writeFile p data))
       ∨ (∃ i type quality, trace r.1 !! i = Some (page_screenshot p type quality))).
Proof.
  cbv zeta. destruct (decide (valid_args w (parseArgs args))) as [Hv|Hv].
  2:{ destruct (main_invalid w files0 args Hv) as (msg & rest & -> & _). simpl.
      repeat split; done. }
  destruct (run_valid w files0 args Hv) as (u & x & Hu & Hx & Hrun).
  destruct (main w files0 args) as [[? ? ? ?] ?] eqn:Hmain.
  run_cases Hrun Hx Hmain.
  all: cbn [fst snd trace files]; unfold path_join.
  all: split; [intros p Hp; rewrite ?lookup_insert_is_Some'; auto|].
  all: split; [intros p Hp; rewrite ?lookup_insert_ne by (intros <-; done); done|].
  all: intros p Hp; try done.
  all: repeat match type of Hp with
       | <[?q := _]> _ !! ?p' ≠ _ =>
           destruct (decide (q = p')) as [<-|];
           [|rewrite lookup_insert_ne in Hp by done]
       end; try done.
  all: first [left; by eexists 7%nat, _ | right; by eexists 13%nat, _, _].
Qed.

(** ** The characters of a file name *)

Lemma domain_of_safe h : all_chars is_safe_char (domain_of h) = true.
Proof.
  unfold domain_of. induction h as [|c h IH]; [done|]. simpl.
  rewrite all_chars_app, IH, andb_true_r. unfold JS.not_alphanumeric.
  destruct (JS.isLower c || JS.isUpper c || JS.isDigit c) eqn:Hc; [|done].
  simpl. unfold is_safe_char, is_alphanumeric. by rewrite Hc.
Qed.

Lemma digits_safe k n : all_chars is_safe_char (JS.digits k n) = true.
Proof.
  apply all_chars_impl with (p := JS.isDigit); [|apply digits_are_digits].
  intros c Hc. unfold is_safe_char, is_alphanumeric. rewrite Hc.
  by rewrite !orb_true_r.
Qed.

Lemma getTimestamp_safe d : all_chars is_safe_char (getTimestamp d) = true.
Proof.
  rewrite getTimestamp_format. unfold JS.isoYear.
  destruct (JS.year d <=? 9999)%N; rewrite !all_chars_app, !digits_safe; reflexivity.
Qed.

Lemma valid_platform_safe args :
  isValidPlatform (platform (parseArgs args)) = true →
  all_chars is_safe_char (platform (parseArgs args)) = true.
Proof.
  intros Hp%isValidPlatform_true. rewrite parseArgs_lowercase in Hp.
  by destruct Hp as [-> | ->].
Qed.

(** X12.  Whatever the host name of the URL, the two files go into the
    script's directory under names made of letters, digits, [-], [.] and
    [+] only: a name holds no path separator, no blank and no character a
    shell or a file system treats specially. *)
Theorem written_file_names_are_safe (w : World) (files0 : gmap Path string)
    (args : list string) :
  let r := main w files0 args in
  (∀ i path data,
     trace r.1 !! i = Some (fs_writeFile path data) →
     path.1 = __dirname w ∧ all_chars is_safe_char path.2 = true)
  ∧ (∀ i path type quality,
       trace r.1 !! i = Some (page_screenshot path type quality) →
       path.1 = __dirname w ∧ all_chars is_safe_char path.2 = true).
Proof.
  cbv zeta. destruct (decide (valid_args w (parseArgs args))) as [Hv|Hv];
    [|split; [intros i p d H|intros i p t q H]; by apply main_invalid_console in H].
  pose proof (valid_platform_safe args (proj2 (proj2 Hv))) as Hp.
  destruct (run_valid w files0 args Hv) as (u & x & Hu & Hx & Hrun).
  destruct (main w files0 args) as [[? ? ? ?] ?] eqn:Hmain.
  run_cases Hrun Hx Hmain.
  all: cbn [fst snd trace]; unfold path_join; split;
    [ intros i path data H; scan H i ltac:(injection H as <- <-)
    | intros i path type quality H; scan H i ltac:(injection H as <- <- <-) ].
  all: split; [done|]; cbn [snd].
  all: by rewrite !all_chars_app, domain_of_safe, getTimestamp_safe, Hp.
Qed.

(** X13.  The timestamp depends on the clock down to the second only: two
    dates that differ in their milliseconds give the same timestamp (and
    so, for the same URL and platform, the same two file names).  For a
    year of at most four digits it is 19 characters long. *)
Theorem timestamp_to_the_second (d1 d2 : JS.Date) :
  JS.year d1 = JS.year d2 → JS.month d1 = JS.month d2 → JS.day d1 = JS.day d2 →
  JS.hours d1 = JS.hours d2 → JS.minutes d1 = JS.minutes d2 →
  JS.seconds d1 = JS.seconds d2 →
  getTimestamp d1 = getTimestamp d2
  ∧ ((JS.year d1 <= 9999)%N → String.length (getTimestamp d1) = 19%nat).
Proof.
  intros Hy Hmo Hd Hh Hmi Hs. rewrite !getTimestamp_format.
  rewrite Hy, Hmo, Hd, Hh, Hmi, Hs. split; [done|].
  intros Hle. unfold JS.isoYear.
  apply N.leb_le in Hle. rewrite Hle.
  by rewrite !length_app_string, !length_digits.
Qed.

Lemma timestamp_to_the_second_witness :
  getTimestamp (JS.mkDate 2024 1 15 10 30 45 123)
  = getTimestamp (JS.mkDate 2024 1 15 10 30 45 999).
Proof.
  apply (timestamp_to_the_second (JS.mkDate 2024 1 15 10 30 45 123)
           (JS.mkDate 2024 1 15 10 30 45 999)); reflexivity.
Defined.

Lemma error_path_skips_kill_witness :
  (main audit_fails_world ∅ ["https://example.com"]).2 = 1
  ∧ browser_running (main audit_fails_world ∅ ["https://example.com"]).1 = true.
Proof.
  split; [reflexivity|].
  apply (error_path_skips_kill audit_fails_world ∅ ["https://example.com"]
           (mkLaunchedChrome 9222));
    [repeat split; reflexivity|reflexivity|reflexivity|reflexivity].
Defined.

Lemma success_path_kills_witness :
  (main sample_world ∅ ["https://example.com"]).2 = 0
  ∧ browser_running (main sample_world ∅ ["https://example.com"]).1 = false.
Proof.
  split; [reflexivity|].
  apply (success_path_kills sample_world ∅ ["https://example.com"]). reflexivity.
Defined.

(** ** Validation and the arguments as given *)

(** A platform given as [--platform=<value>] with a value free of [=], or
    as [--platform <value>] with a value that is not itself a platform
    argument, and followed by no other platform argument, is checked
    whole: when the value is neither [desktop] nor [mobile] up to the case
    of its letters, the script prints a diagnostic, exits with code 1 and
    has launched no browser and written no file. *)
Lemma invalid_platform_argument_exit_1 (w : World) (files0 : gmap Path string)
    (v : string) (pre post : list string) (args : list string) :
  JS.toLowerCase v ≠ "desktop" → JS.toLowerCase v ≠ "mobile" →
  existsb is_platform_flag post = false →
  (all_chars (other_than "=") v = true ∧ args = pre ++ ("--platform=" +:+ v) :: post)
  ∨ (is_platform_flag v = false ∧ args = pre ++ "--platform" :: v :: post) →
  ∃ msg rest,
    main w files0 args = (mkState (console_error msg :: rest) files0 None false, 1)
    ∧ Forall (λ e, is_console e = true) rest.
Proof.
  intros Hd Hm Hpost Hargs. apply main_invalid. intros (_ & _ & Hp).
  apply isValidPlatform_true in Hp.
  assert (platform (parseArgs args) = JS.toLowerCase v) as Hplat.
  { unfold parseArgs. destruct Hargs as [[Hv ->]|[Hv ->]].
    - destruct (parse_loop_app pre (("--platform=" +:+ v) :: post)
                  (mkArgs None "desktop")) as [st ->].
      simpl. rewrite parse_loop_no_platform_flag by done.
      by rewrite parse_step_platform_eq.
    - destruct (parse_loop_app pre ("--platform" :: v :: post)
                  (mkArgs None "desktop")) as [st ->].
      cbn [parse_loop]. rewrite parse_loop_no_platform_flag by done.
      rewrite parse_step_other by done. by rewrite parse_step_platform_next. }
  rewrite Hplat, toLowerCase_idem in Hp. tauto.
Qed.

(** C4 (the code departs from it).  The platform given here, [mobile=x],
    is neither [desktop] nor [mobile], yet [--platform=mobile=x] is cut to
    [mobile] by [split("=")[1]], passes the platform check, and the run
    goes all the way: the browser is launched, two files are written, the
    exit code is 0.  The same value given as [--platform mobile=x] is
    rejected with the diagnostic and exit code 1. *)
Theorem platform_value_cut_passes_validation :
  let args := ["https://example.com"; "--platform=mobile=x"] in
  let r := main sample_world ∅ args in
  (JS.toLowerCase "mobile=x" ≠ "desktop" ∧ JS.toLowerCase "mobile=x" ≠ "mobile")
  ∧ parseArgs args = mkArgs (Some "https://example.com") "mobile"
  ∧ r.2 = 0
  ∧ trace r.1 !! 3%nat
    = Some (chromeLauncher_launch ["--headless"; "--no-sandbox"; "--disable-dev-shm-usage"])
  ∧ browser_running (main audit_fails_world ∅ args).1 = true
  ∧ files r.1
    = {[ ("/app/scripts",
          "lighthouse-accessibility-example-com-mobile-2024-01-15T10-30-45.html")
         := "<html>report</html>";
         ("/app/scripts",
          "lighthouse-accessibility-example-com-mobile-2024-01-15T10-30-45.jpg")
         := "<jpeg>" ]}
  ∧ main sample_world ∅ ["https://example.com"; "--platform"; "mobile=x"]
    = (mkState [console_error "❌ Error: Invalid platform. Use 'desktop' or 'mobile'"]
         ∅ None false, 1).
Proof. cbv zeta. repeat split; try discriminate; reflexivity. Qed.
